(** * Hand safety monitor: the proximity classifier and the frame loop

    A shallow embedding of [src/vrt6.py] ([HandSafetySystem]) and the
    properties of its three methods [process_frame], [calculate_logic] and
    [run].

    Modelling conventions.

    - A hull is the list of its points in iteration order, a rectangle the
      tuple of four Python integers.  The points of a hull are Python
      integers when the method is called on plain tuples, and [np.int32]
      scalars when the hull is the array [cv2.convexHull] returns.  The
      arithmetic of line 85 is exact on the first and wraps modulo 2^32 on
      the second.  [calculate_logic] is the method with exact integer
      arithmetic ([Z]); [calculate_logic_on] is the method on either kind
      of hull, with the wrap-around and the exceptions of line 85 written
      out, and is proved to agree with [calculate_logic] wherever nothing
      wraps ([exact_domain]).
    - [math.sqrt] is applied to the integer line 85 computes.  The float it
      returns is represented by its radicand ([Sqrt r]); the integer
      constants 0, 10, 150 and 99999 the code mixes with it are [Int n].
      The order on these numbers is decided on squares ([num_ltb],
      [num_leb]) and is proved to be the order of the real numbers they
      denote ([num_R]).  A correctly rounded square root is monotone and
      exact on perfect squares, and two integer radicands below 99999^2
      have roots further apart than one unit in the last place, so every
      comparison the code performs has the outcome computed here.
    - [math.sqrt] raises [ValueError] on a negative argument and
      [OverflowError] on an integer beyond the range of a float.  In
      [calculate_logic] a raised exception is [None]; in
      [calculate_logic_on] it is [Raises]. *)

From Stdlib Require Import String DecimalString.
From Stdlib Require Import ZArith List Lia Bool QArith Reals Lra Permutation.
Import ListNotations.

Local Open Scope Z_scope.

(** ** Numbers *)

Module Num.

(** A value held by [min_dist] / [dist]: a Python [int], or the float
    [math.sqrt r]. *)
Inductive number : Type :=
| Int (n : Z)
| Sqrt (r : Z).

(** [math.sqrt]: [ValueError] on a negative argument.  [math_sqrt_int]
    below adds the [OverflowError] of an integer beyond the range of a
    float. *)
Definition math_sqrt (x : Z) : option number :=
  if x <? 0 then None else Some (Sqrt x).

(** [a < b] *)
Definition num_ltb (a b : number) : bool :=
  match a, b with
  | Int x, Int y => x <? y
  | Sqrt r, Sqrt s => r <? s
  | Sqrt r, Int y => (0 <? y) && (r <? y * y)
  | Int x, Sqrt s => (x <? 0) || (x * x <? s)
  end.

(** [a <= b] *)
Definition num_leb (a b : number) : bool :=
  match a, b with
  | Int x, Int y => x <=? y
  | Sqrt r, Sqrt s => r <=? s
  | Sqrt r, Int y => (0 <=? y) && (r <=? y * y)
  | Int x, Sqrt s => (x <=? 0) || (x * x <=? s)
  end.

(** The real number a [number] stands for. *)
Definition num_R (a : number) : R :=
  match a with
  | Int n => IZR n
  | Sqrt r => sqrt (IZR r)
  end.

(** Radicands produced by the program are never negative. *)
Definition wf (a : number) : Prop :=
  match a with
  | Int _ => True
  | Sqrt r => 0 <= r
  end.

End Num.
Export Num.

(** ** Data model *)

Definition point : Type := Z * Z.

(** [rect] is the tuple [(rx, ry, rw, rh)]. *)
Definition Rect : Type := Z * Z * Z * Z.

Inductive SafetyState : Type :=
| STATE_SAFE
| STATE_WARNING
| STATE_DANGER.

(** The integer constants of [__init__]. *)
Definition state_code (s : SafetyState) : Z :=
  match s with
  | STATE_SAFE => 0
  | STATE_WARNING => 1
  | STATE_DANGER => 2
  end.

(** The tuple [calculate_logic] returns. *)
Record ProximityResult : Type := mkResult {
  state : SafetyState;
  distance : number;
  hand_point : point;
  zone_point : point
}.

(** ** [calculate_logic] *)

Notation "x <- c ;; k" := (match c with Some x => k | None => None end)
  (at level 61, c at next level, right associativity).

(** [max(lo, min(v, hi))] *)
Definition clamp (v lo hi : Z) : Z := Z.max lo (Z.min v hi).

(** The closest point of the box to a hull point (lines 81-82). *)
Definition box_point (rect : Rect) (p : point) : point :=
  let '(rx, ry, rw, rh) := rect in
  let '(px, py) := p in
  (clamp px rx (rx + rw), clamp py ry (ry + rh)).

(** The argument of [math.sqrt] on line 85 in exact integer arithmetic;
    [line_85] below has the wrap-around of [np.int32] operands. *)
Definition sq_dist (p q : point) : Z :=
  (fst p - fst q) ^ 2 + (snd p - snd q) ^ 2.

(** The three loop variables. *)
Record Scan : Type := mkScan {
  min_dist : number;
  closest_hand_point : point;
  closest_box_point : point
}.

(** Lines 72-74. *)
Definition scan_init : Scan := mkScan (Int 99999) (0, 0) (0, 0).

(** One iteration of the [for] loop (lines 78-91). *)
Definition scan_step (rect : Rect) (s : Scan) (p : point) : option Scan :=
  let cl := box_point rect p in
  dist <- math_sqrt (sq_dist p cl) ;;
  Some (if num_ltb dist (min_dist s) then mkScan dist p cl else s).

(** The [for point in hull] loop. *)
Fixpoint scan_hull (rect : Rect) (hull : list point) (s : Scan) : option Scan :=
  match hull with
  | [] => Some s
  | p :: rest => s' <- scan_step rect s p ;; scan_hull rect rest s'
  end.

(** Lines 94-99. *)
Definition thresholds (s : Scan) : ProximityResult :=
  if num_leb (min_dist s) (Int 10) then
    mkResult STATE_DANGER (min_dist s) (closest_hand_point s) (closest_box_point s)
  else if num_ltb (min_dist s) (Int 150) then
    mkResult STATE_WARNING (min_dist s) (closest_hand_point s) (closest_box_point s)
  else
    mkResult STATE_SAFE (min_dist s) (closest_hand_point s) (closest_box_point s).

(** [calculate_logic(hull, rect)] in exact integer arithmetic; [None] as a
    result is a raised exception.  [calculate_logic_on] below is the
    method on a hull of Python integers or of [np.int32] scalars. *)
Definition calculate_logic (hull : option (list point)) (rect : Rect)
  : option ProximityResult :=
  match hull with
  | None => Some (mkResult STATE_SAFE (Int 0) (0, 0) (0, 0))
  | Some pts => s <- scan_hull rect pts scan_init ;; Some (thresholds s)
  end.

(** ** The vision library

    [process_frame] and [run] are thin wrappers around OpenCV.  The calls
    they make are the fields of this interface; nothing is assumed about
    them.  [contourArea] returns the area enclosed by a contour, a
    half-integer for a contour with integer vertices, embedded in [Q]. *)

Class OpenCV : Type := {
  Image : Type;
  Mask : Type;
  Contour : Type;
  GaussianBlur : Image -> Z * Z -> Z -> Image;
  cvtColor_BGR2HSV : Image -> Image;
  inRange : Image -> Z * Z * Z -> Z * Z * Z -> Mask;
  erode : Mask -> Z * Z -> nat -> Mask;
  dilate : Mask -> Z * Z -> nat -> Mask;
  findContours : Mask -> list Contour;
  contourArea : Contour -> Q;
  convexHull : Contour -> list point;
  flip : Image -> Z -> Image;
  shape : Image -> Z * Z
}.

(** [a > b] on areas. *)
Definition Qgtb (a b : Q) : bool := negb (Qle_bool a b).

(** Python's [max(iterable, key=...)] on a non-empty iterable: the running
    maximum is replaced only by a strictly greater key, so the first of
    several maximal items is returned. *)
Fixpoint max_from {A : Type} (key : A -> Q) (best : A) (l : list A) : A :=
  match l with
  | [] => best
  | x :: rest => max_from key (if Qgtb (key x) (key best) then x else best) rest
  end.

Section Vision.

Context {cv : OpenCV}.

(** Lines 25-26. *)
Definition lower_hsv : Z * Z * Z := (0, 30, 60).
Definition upper_hsv : Z * Z * Z := (25, 255, 255).

(** Lines 35-47: from the frame to the contours of the cleaned mask. *)
Definition contours_of (frame : Image) : list Contour :=
  let blurred := GaussianBlur frame (11, 11) 0 in
  let hsv := cvtColor_BGR2HSV blurred in
  let mask := inRange hsv lower_hsv upper_hsv in
  let kernel := (5, 5) in
  let mask := erode mask kernel 1 in
  let mask := dilate mask kernel 2 in
  findContours mask.

(** [process_frame(frame)] (lines 49-60). *)
Definition process_frame (frame : Image) : option (list point) :=
  match contours_of frame with
  | [] => None
  | c :: rest =>
      let max_contour := max_from contourArea c rest in
      if Qgtb (contourArea max_contour) (3000 # 1)
      then Some (convexHull max_contour)
      else None
  end.

(** [m] is a contour of [cs] of maximum enclosed area. *)
Definition max_area_contour (cs : list Contour) (m : Contour) : Prop :=
  In m cs /\ forall c, In c cs -> (contourArea c <= contourArea m)%Q.

(** *** [run] *)

(** What one pass of the [while] loop reads from the outside: the pair
    returned by [cap.read()] and the key returned by [waitKey(1)]. *)
Record Tick : Type := mkTick {
  ret : bool;
  frame_read : Image;
  key : Z
}.

(** What one pass hands to the drawing calls. *)
Record Shown : Type := mkShown {
  shown_zone : Rect;
  shown_hull : option (list point);
  shown_result : ProximityResult
}.

(** [int(w * 0.65)] and [int(h * 0.25)] for the frame sizes a capture
    device delivers: the float product truncated towards zero. *)
Definition int_times_065 (w : Z) : Z := Z.quot (w * 65) 100.
Definition int_times_025 (h : Z) : Z := Z.quot (h * 25) 100.

(** Line 115. *)
Definition zone_for (h w : Z) : Rect :=
  (int_times_065 w, int_times_025 h, 200, 200).

(** [ord('q')] *)
Definition ord_q : Z := 113.

(** The [while True] loop (lines 105-168) over the ticks that remain;
    [self_rect] is [self.danger_zone_rect].  The result is the final
    [self.danger_zone_rect] and what was shown, pass by pass; [None] is an
    exception escaping the loop. *)
Fixpoint run_loop (self_rect : option Rect) (ticks : list Tick)
  : option (option Rect * list Shown) :=
  match ticks with
  | [] => Some (self_rect, [])
  | t :: rest =>
      if negb (ret t) then Some (self_rect, [])
      else
        let frame := flip (frame_read t) 1 in
        let '(h, w) := shape frame in
        let zone :=
          match self_rect with
          | None => zone_for h w
          | Some z => z
          end in
        let self_rect := Some zone in
        let hull := process_frame frame in
        res <- calculate_logic hull zone ;;
        let shown := mkShown zone hull res in
        if Z.land (key t) 255 =? ord_q then Some (self_rect, [shown])
        else
          out <- run_loop self_rect rest ;;
          Some (fst out, shown :: snd out)
  end.

(** [run()] on a system fresh from [__init__] (line 12). *)
Definition run (ticks : list Tick) : option (option Rect * list Shown) :=
  run_loop None ticks.

End Vision.

(** *** A synthetic library instance

    Images are given directly by the contours they contain; the area is
    the shoelace formula, as [cv2.contourArea] computes it. *)

Fixpoint shoelace_from (first prev : point) (l : list point) : Z :=
  match l with
  | [] => fst prev * snd first - fst first * snd prev
  | p :: rest => fst prev * snd p - fst p * snd prev + shoelace_from first p rest
  end.

Definition polygon_area (c : list point) : Q :=
  match c with
  | [] => 0
  | p :: rest => Z.abs (shoelace_from p p rest) # 2
  end.

#[local] Instance synthetic_cv : OpenCV := {|
  Image := (Z * Z) * list (list point);
  Mask := list (list point);
  Contour := list point;
  GaussianBlur := fun img _ _ => img;
  cvtColor_BGR2HSV := fun img => img;
  inRange := fun img _ _ => snd img;
  erode := fun m _ _ => m;
  dilate := fun m _ _ => m;
  findContours := fun m => m;
  contourArea := polygon_area;
  convexHull := fun c => c;
  flip := fun img _ => img;
  shape := fun img => fst img
|}.

(** A 60 x 50 box: area exactly 3000. *)
Definition box_60_50 : list point := [(0, 0); (0, 50); (60, 50); (60, 0)].

(** A 100 x 100 box at (300, 200): area 10000. *)
Definition box_100_100 : list point :=
  [(300, 200); (300, 300); (400, 300); (400, 200)].

(** Three reads of frames of different sizes; the third pass sees the
    quit key. *)
Definition three_ticks : list (Tick (cv := synthetic_cv)) :=
  [ mkTick true ((480, 640), []) 255;
    mkTick true ((720, 1280), [box_60_50; box_100_100]) 0;
    mkTick true ((240, 320), []) 113;
    mkTick true ((480, 640), []) 0 ].

(** ** Vocabulary of the properties *)

(** Squared distance from a hull point to its closest box point. *)
Definition gap2 (rect : Rect) (p : point) : Z := sq_dist p (box_point rect p).

Local Open Scope R_scope.

(** Euclidean distance between two pixel positions. *)
Definition euclid (p q : point) : R :=
  sqrt ((IZR (fst p) - IZR (fst q)) * (IZR (fst p) - IZR (fst q))
        + (IZR (snd p) - IZR (snd q)) * (IZR (snd p) - IZR (snd q))).

(** Distance from a hull point to the point of the rectangle the code
    clamps it to. *)
Definition gap (rect : Rect) (p : point) : R := euclid p (box_point rect p).

(** [d] is the minimum of [gap] over the vertices [pts]. *)
Definition is_min_gap (rect : Rect) (pts : list point) (d : R) : Prop :=
  (exists p, In p pts /\ gap rect p = d) /\
  (forall q, In q pts -> d <= gap rect q).

(** The three buckets of the classifier: [s] is the state for the
    distance [d]. *)
Definition bucket (d : R) (s : SafetyState) : Prop :=
  (d <= 10 -> s = STATE_DANGER) /\
  (10 < d < 150 -> s = STATE_WARNING) /\
  (150 <= d -> s = STATE_SAFE).

Local Close Scope R_scope.

(** A Python [float], as opposed to an [int]. *)
Definition is_float (a : number) : bool :=
  match a with
  | Sqrt _ => true
  | Int _ => false
  end.

(** What the loop has found after scanning [hull]: nothing below the
    initial 99999, or the first vertex of least distance. *)
Definition found (rect : Rect) (hull : list point) (s : Scan) : Prop :=
  (s = scan_init /\
   forall q, In q hull -> 99999 * 99999 <= gap2 rect q)
  \/
  (exists l1 p l2,
     hull = l1 ++ p :: l2 /\
     s = mkScan (Sqrt (gap2 rect p)) p (box_point rect p) /\
     gap2 rect p < 99999 * 99999 /\
     (forall q, In q l1 -> gap2 rect p < gap2 rect q) /\
     (forall q, In q l2 -> gap2 rect p <= gap2 rect q)).

(** Translation by [(dx, dy)]. *)
Definition shift (d : Z * Z) (p : point) : point :=
  (fst p + fst d, snd p + snd d).

Definition shift_hull (d : Z * Z) (hull : option (list point))
  : option (list point) :=
  option_map (map (shift d)) hull.

Definition shift_rect (d : Z * Z) (rect : Rect) : Rect :=
  let '(rx, ry, rw, rh) := rect in (rx + fst d, ry + snd d, rw, rh).


(** ** The overlay drawn by [run]

    Lines 125-165 draw on the frame and show it.  The drawing calls are
    recorded in the order they are made; every text is drawn with the same
    font, which is left out. *)

Definition Color : Type := Z * Z * Z.

Inductive Draw : Type :=
| DrawRectangle (pt1 pt2 : point) (color : Color) (thickness : Z)
| DrawText (text : string) (org : point) (fontScale : Q) (color : Color)
           (thickness : Z)
| DrawContours (contour : list point) (contourIdx : Z) (color : Color)
               (thickness : Z)
| DrawLine (pt1 pt2 : point) (color : Color) (thickness : Z)
| DrawCircle (center : point) (radius : Z) (color : Color) (thickness : Z)
| Imshow (winname : string).

(** [color_map[state]] (lines 126-131). *)
Definition color_map (s : SafetyState) : Color :=
  match s with
  | STATE_SAFE => (0, 255, 0)
  | STATE_WARNING => (0, 255, 255)
  | STATE_DANGER => (0, 0, 255)
  end.

(** [int(a)]: an [int] is unchanged, a float is truncated.  The float is
    the root of a non-negative integer, so its integer part is the integer
    square root. *)
Definition py_int (a : number) : Z :=
  match a with
  | Int n => n
  | Sqrt r => Z.sqrt r
  end.

(** [f"{int(dist)}px"] *)
Definition px_label (dist : number) : string :=
  (NilZero.string_of_int (Z.to_int (py_int dist)) ++ "px")%string.

(** Lines 142-149. *)
Definition interaction_draws (res : ProximityResult) : list Draw :=
  let hand_pt := hand_point res in
  let box_pt := zone_point res in
  [ DrawLine hand_pt box_pt (255, 255, 255) 2;
    DrawCircle hand_pt 8 (0, 0, 255) (-1);
    DrawCircle box_pt 5 (255, 255, 255) (-1);
    DrawText (px_label (distance res)) (fst hand_pt + 10, snd hand_pt)
             (6 # 10) (255, 255, 255) 2 ].

(** Lines 138-149. *)
Definition hand_draws (hull : option (list point)) (res : ProximityResult)
  : list Draw :=
  match hull with
  | None => []
  | Some pts =>
      DrawContours pts (-1) (255, 255, 0) 2 ::
      (if negb (state_code (state res) =? state_code STATE_SAFE)
       then interaction_draws res
       else [])
  end.

(** Lines 152-163. *)
Definition alert_draws (h w : Z) (s : SafetyState) : list Draw :=
  if state_code s =? state_code STATE_DANGER then
    [ DrawRectangle (0, 0) (w, h) (0, 0, 255) 15;
      DrawText "DANGER DANGER" (50, h / 2) (25 # 10) (0, 0, 255) 6 ]
  else if state_code s =? state_code STATE_WARNING then
    [ DrawText "WARNING: APPROACHING" (20, 50) 1 (0, 255, 255) 2 ]
  else
    [ DrawText "STATE: SAFE" (20, 50) 1 (0, 255, 0) 2 ].

(** Lines 125-165, for a frame of height [h] and width [w]. *)
Definition draw_overlays (h w : Z) (zone : Rect)
  (hull : option (list point)) (res : ProximityResult) : list Draw :=
  let '(ox, oy, ow, oh) := zone in
  let theme_color := color_map (state res) in
  [ DrawRectangle (ox, oy) (ox + ow, oy + oh) theme_color 3;
    DrawText "VIRTUAL OBJECT" (ox, oy - 10) (6 # 10) theme_color 2 ]
  ++ hand_draws hull res
  ++ alert_draws h w (state res)
  ++ [ Imshow "Hand Safety Monitor" ].

(** ** More vocabulary *)

(** [q] is a point of the rectangle [rect]. *)
Definition in_rect (rect : Rect) (q : point) : Prop :=
  let '(rx, ry, rw, rh) := rect in
  (rx <= fst q <= rx + rw) /\ (ry <= snd q <= ry + rh).

(** Of two results, the one with the smaller distance; the first on a
    tie. *)
Definition closer (r1 r2 : ProximityResult) : ProximityResult :=
  if num_leb (distance r1) (distance r2) then r1 else r2.


(** What the loop can hold in its three variables. *)
Definition scan_ok (s : Scan) : Prop :=
  s = scan_init \/
  exists r, 0 <= r < 99999 * 99999 /\ min_dist s = Sqrt r.

(** A second 100 x 100 box, at (0, 0): the same area as [box_100_100]. *)
Definition box_100_100_b : list point :=
  [(0, 0); (0, 100); (100, 100); (100, 0)].

(** ** Line 85 on either kind of hull

    With NumPy's promotion rules a Python integer combined with an
    [np.int32] scalar takes the type [np.int32]: it must fit 32 bits
    ([OverflowError] otherwise), and the result of [-], [**] and [+] wraps
    modulo 2^32.  [max] and [min] return one of their arguments, so the
    clamped coordinate is the [np.int32] coordinate itself when that lies
    strictly above the lower and not above the upper bound, and a Python
    integer of the rectangle otherwise. *)

Inductive Ints : Type :=
| PythonInt
| NumpyInt32.

Inductive Exception : Type :=
| ValueError
| OverflowError.

Inductive Outcome (A : Type) : Type :=
| Returns (a : A)
| Raises (e : Exception).

Arguments Returns {A} a.
Arguments Raises {A} e.

Notation "x <~ c ;; k" :=
  (match c with Returns x => k | Raises e => Raises e end)
  (at level 61, c at next level, right associativity).

Definition fits_int32 (z : Z) : bool := (- 2 ^ 31 <=? z) && (z <? 2 ^ 31).

(** The value of a 32-bit signed result. *)
Definition wrap32 (z : Z) : Z := (z + 2 ^ 31) mod 2 ^ 32 - 2 ^ 31.

(** The least integer the conversion to a float refuses. *)
Definition float_overflow : Z := 2 ^ 1024 - 2 ^ 970.

(** [v - max(lo, min(v, hi))] *)
Definition coord_diff (k : Ints) (v lo hi : Z) : Outcome Z :=
  let c := clamp v lo hi in
  match k with
  | PythonInt => Returns (v - c)
  | NumpyInt32 =>
      if (lo <? v) && (v <=? hi) then Returns 0
      else if fits_int32 c then Returns (wrap32 (v - c))
      else Raises OverflowError
  end.

(** [d ** 2] *)
Definition square_on (k : Ints) (d : Z) : Z :=
  match k with
  | PythonInt => d * d
  | NumpyInt32 => wrap32 (d * d)
  end.

(** [a + b] *)
Definition add_on (k : Ints) (a b : Z) : Z :=
  match k with
  | PythonInt => a + b
  | NumpyInt32 => wrap32 (a + b)
  end.

(** [math.sqrt] of an integer. *)
Definition math_sqrt_int (x : Z) : Outcome number :=
  if x <? 0 then Raises ValueError
  else if float_overflow <=? x then Raises OverflowError
  else Returns (Sqrt x).

(** Line 85. *)
Definition line_85 (k : Ints) (rect : Rect) (p : point) : Outcome number :=
  let '(rx, ry, rw, rh) := rect in
  let '(px, py) := p in
  dx <~ coord_diff k px rx (rx + rw) ;;
  let sx := square_on k dx in
  dy <~ coord_diff k py ry (ry + rh) ;;
  let sy := square_on k dy in
  math_sqrt_int (add_on k sx sy).

(** Lines 78-91. *)
Definition scan_step_on (k : Ints) (rect : Rect) (s : Scan) (p : point)
  : Outcome Scan :=
  dist <~ line_85 k rect p ;;
  Returns (if num_ltb dist (min_dist s)
           then mkScan dist p (box_point rect p)
           else s).

Fixpoint scan_hull_on (k : Ints) (rect : Rect) (hull : list point) (s : Scan)
  : Outcome Scan :=
  match hull with
  | [] => Returns s
  | p :: rest => s' <~ scan_step_on k rect s p ;; scan_hull_on k rect rest s'
  end.

(** [calculate_logic(hull, rect)] on a hull of the kind [k]. *)
Definition calculate_logic_on (k : Ints) (hull : option (list point))
  (rect : Rect) : Outcome ProximityResult :=
  match hull with
  | None => Returns (mkResult STATE_SAFE (Int 0) (0, 0) (0, 0))
  | Some pts =>
      s <~ scan_hull_on k rect pts scan_init ;; Returns (thresholds s)
  end.

(** Where nothing wraps: the corners of the rectangle and the coordinates
    of the hull fit 32 bits, and every vertex is at a squared distance
    below 2^31 from its clamped point (closer than 46341). *)
Definition rect_fits (rect : Rect) : Prop :=
  let '(rx, ry, rw, rh) := rect in
  fits_int32 rx = true /\ fits_int32 ry = true /\
  fits_int32 (rx + rw) = true /\ fits_int32 (ry + rh) = true.

Definition point_exact (rect : Rect) (p : point) : Prop :=
  fits_int32 (fst p) = true /\ fits_int32 (snd p) = true /\
  gap2 rect p < 2 ^ 31.

Definition exact_domain (rect : Rect) (pts : list point) : Prop :=
  rect_fits rect /\ forall p, In p pts -> point_exact rect p.

Definition hull_exact (rect : Rect) (hull : option (list point)) : Prop :=
  match hull with
  | None => True
  | Some pts => exact_domain rect pts
  end.

(** A value that can stand for an infinite distance: no hull is ever
    reported further away. *)
Definition stands_for_infinity (a : number) : Prop :=
  forall k pts rect r,
    calculate_logic_on k (Some pts) rect = Returns r ->
    (num_R (distance r) <= num_R a)%R.

(** What the loop can hold on a hull of [np.int32] points. *)
Definition scan_ok32 (s : Scan) : Prop :=
  s = scan_init \/
  exists r, 0 <= r < 2 ^ 31 /\ min_dist s = Sqrt r.

(** * Properties *)

Ltac split_all := repeat match goal with |- _ /\ _ => split end; trivial.

(** ** Numbers *)

Section NumberOrder.

Local Open Scope R_scope.

Lemma sqrt_lt_iff (a y : R) : 0 <= a -> 0 <= y -> (sqrt a < y <-> a < y * y).
Proof.
  intros Ha Hy. pose proof (sqrt_sqrt a Ha) as Hs. pose proof (sqrt_pos a) as Hp.
  split; intro H; nra.
Qed.

Lemma sqrt_le_iff (a y : R) : 0 <= a -> 0 <= y -> (sqrt a <= y <-> a <= y * y).
Proof.
  intros Ha Hy. pose proof (sqrt_sqrt a Ha) as Hs. pose proof (sqrt_pos a) as Hp.
  split; intro H; nra.
Qed.

Lemma lt_sqrt_iff (a y : R) : 0 <= a -> 0 <= y -> (y < sqrt a <-> y * y < a).
Proof.
  intros Ha Hy. pose proof (sqrt_sqrt a Ha) as Hs. pose proof (sqrt_pos a) as Hp.
  split; intro H; nra.
Qed.

Lemma le_sqrt_iff (a y : R) : 0 <= a -> 0 <= y -> (y <= sqrt a <-> y * y <= a).
Proof.
  intros Ha Hy. pose proof (sqrt_sqrt a Ha) as Hs. pose proof (sqrt_pos a) as Hp.
  split; intro H; nra.
Qed.

Lemma IZR_nonneg (z : Z) : (0 <= z)%Z -> 0 <= IZR z.
Proof. intro H. apply (IZR_le 0 z H). Qed.

(** [num_ltb] decides the strict order of the denoted reals. *)
Lemma num_ltb_spec (a b : number) :
  wf a -> wf b -> (num_ltb a b = true <-> num_R a < num_R b).
Proof.
  destruct a as [x | r], b as [y | s]; simpl; intros Ha Hb.
  - rewrite Z.ltb_lt. split; [apply IZR_lt | apply lt_IZR].
  - rewrite orb_true_iff, !Z.ltb_lt.
    pose proof (sqrt_pos (IZR s)) as Hp.
    destruct (Z_lt_le_dec x 0) as [Hx | Hx].
    + split; [intros _| now left].
      apply (IZR_lt x 0) in Hx. lra.
    + rewrite (lt_sqrt_iff (IZR s) (IZR x)) by now apply IZR_nonneg.
      rewrite <- mult_IZR. split.
      * intros [H | H]; [lia | now apply IZR_lt].
      * intro H. right. now apply lt_IZR.
  - rewrite andb_true_iff, !Z.ltb_lt.
    pose proof (sqrt_pos (IZR r)) as Hp.
    destruct (Z_lt_le_dec 0 y) as [Hy | Hy].
    + rewrite (sqrt_lt_iff (IZR r) (IZR y)) by (apply IZR_nonneg; lia).
      rewrite <- mult_IZR. split.
      * intros [_ H]. now apply IZR_lt.
      * intro H. split; [assumption | now apply lt_IZR].
    + split; [lia |].
      apply (IZR_le y 0) in Hy. lra.
  - rewrite Z.ltb_lt. split; intro H.
    + apply sqrt_lt_1_alt. split; [now apply IZR_nonneg | now apply IZR_lt].
    + apply lt_IZR. now apply sqrt_lt_0_alt.
Qed.

(** [num_leb] decides the order of the denoted reals. *)
Lemma num_leb_spec (a b : number) :
  wf a -> wf b -> (num_leb a b = true <-> num_R a <= num_R b).
Proof.
  destruct a as [x | r], b as [y | s]; simpl; intros Ha Hb.
  - rewrite Z.leb_le. split; [apply IZR_le | apply le_IZR].
  - rewrite orb_true_iff, !Z.leb_le.
    pose proof (sqrt_pos (IZR s)) as Hp.
    destruct (Z_le_gt_dec x 0) as [Hx | Hx].
    + split; [intros _| now left].
      apply (IZR_le x 0) in Hx. lra.
    + rewrite (le_sqrt_iff (IZR s) (IZR x)) by (try apply IZR_nonneg; lia).
      rewrite <- mult_IZR. split.
      * intros [H | H]; [lia | now apply IZR_le].
      * intro H. right. now apply le_IZR.
  - rewrite andb_true_iff, !Z.leb_le.
    pose proof (sqrt_pos (IZR r)) as Hp.
    destruct (Z_le_gt_dec 0 y) as [Hy | Hy].
    + rewrite (sqrt_le_iff (IZR r) (IZR y)) by now apply IZR_nonneg.
      rewrite <- mult_IZR. split.
      * intros [_ H]. now apply IZR_le.
      * intro H. split; [assumption | now apply le_IZR].
    + split; [lia |].
      assert (y < 0)%Z as Hy' by lia. apply (IZR_lt y 0) in Hy'. lra.
  - rewrite Z.leb_le. split; intro H.
    + apply sqrt_le_1_alt. now apply IZR_le.
    + apply le_IZR. apply sqrt_le_0; try apply IZR_nonneg; assumption.
Qed.

End NumberOrder.

(** The examples of the specification. *)
Example classify_left_of_zone :
  calculate_logic (Some [(50, 100)]) (100, 100, 200, 200)
  = Some (mkResult STATE_WARNING (Sqrt 2500) (50, 100) (100, 100)).
Proof. reflexivity. Qed.

Example classify_inside_zone :
  calculate_logic (Some [(102, 102)]) (100, 100, 200, 200)
  = Some (mkResult STATE_DANGER (Sqrt 0) (102, 102) (102, 102)).
Proof. reflexivity. Qed.

Example classify_far_corner :
  calculate_logic (Some [(400, 400)]) (0, 0, 200, 200)
  = Some (mkResult STATE_SAFE (Sqrt 80000) (400, 400) (200, 200)).
Proof. reflexivity. Qed.

(** ** The scan over the hull *)


Lemma sq_dist_nonneg (p q : point) : 0 <= sq_dist p q.
Proof. unfold sq_dist. nia. Qed.

Lemma gap2_nonneg (rect : Rect) (p : point) : 0 <= gap2 rect p.
Proof. apply sq_dist_nonneg. Qed.

(** [math.sqrt] never raises on line 85. *)
Lemma math_sqrt_sq_dist (p q : point) :
  math_sqrt (sq_dist p q) = Some (Sqrt (sq_dist p q)).
Proof.
  unfold math_sqrt. pose proof (sq_dist_nonneg p q) as H.
  destruct (Z.ltb_spec (sq_dist p q) 0); [lia | reflexivity].
Qed.

Lemma scan_step_eq (rect : Rect) (s : Scan) (p : point) :
  scan_step rect s p
  = Some (if num_ltb (Sqrt (gap2 rect p)) (min_dist s)
          then mkScan (Sqrt (gap2 rect p)) p (box_point rect p)
          else s).
Proof. unfold scan_step. now rewrite math_sqrt_sq_dist. Qed.

Lemma scan_hull_app (rect : Rect) (l1 l2 : list point) (s : Scan) :
  scan_hull rect (l1 ++ l2) s
  = s' <- scan_hull rect l1 s ;; scan_hull rect l2 s'.
Proof.
  revert s. induction l1 as [| p l1 IH]; intro s; simpl; [reflexivity |].
  rewrite scan_step_eq. apply IH.
Qed.

(** [euclid] is the root of the integer the code passes to [math.sqrt]. *)
Lemma euclid_sq_dist (p q : point) : euclid p q = num_R (Sqrt (sq_dist p q)).
Proof.
  unfold euclid, sq_dist, num_R. f_equal.
  rewrite !Z.pow_2_r, plus_IZR, !mult_IZR, !minus_IZR. reflexivity.
Qed.

Lemma gap_gap2 (rect : Rect) (p : point) : gap rect p = num_R (Sqrt (gap2 rect p)).
Proof. apply euclid_sq_dist. Qed.

Lemma gap_lt_iff (rect : Rect) (p q : point) :
  (gap rect p < gap rect q)%R <-> gap2 rect p < gap2 rect q.
Proof.
  rewrite !gap_gap2, <- num_ltb_spec by apply gap2_nonneg.
  simpl. apply Z.ltb_lt.
Qed.

Lemma gap_le_iff (rect : Rect) (p q : point) :
  (gap rect p <= gap rect q)%R <-> gap2 rect p <= gap2 rect q.
Proof.
  rewrite !gap_gap2, <- num_leb_spec by apply gap2_nonneg.
  simpl. apply Z.leb_le.
Qed.

Lemma gap_lt_cap_iff (rect : Rect) (p : point) :
  (gap rect p < 99999)%R <-> gap2 rect p < 99999 * 99999.
Proof.
  rewrite gap_gap2.
  rewrite <- (num_ltb_spec (Sqrt (gap2 rect p)) (Int 99999))
    by (simpl; auto using gap2_nonneg).
  simpl. rewrite Z.ltb_lt. reflexivity.
Qed.

Lemma gap_ge_cap_iff (rect : Rect) (p : point) :
  (99999 <= gap rect p)%R <-> 99999 * 99999 <= gap2 rect p.
Proof.
  pose proof (gap_lt_cap_iff rect p) as H.
  split; intro H1.
  - destruct (Z_lt_le_dec (gap2 rect p) (99999 * 99999)) as [H2 | H2]; [| exact H2].
    apply H in H2. lra.
  - destruct (Rlt_le_dec (gap rect p) 99999) as [H2 | H2]; [| exact H2].
    apply H in H2. lia.
Qed.

Lemma num_ltb_cap (r : Z) :
  num_ltb (Sqrt r) (Int 99999) = (r <? 99999 * 99999).
Proof. reflexivity. Qed.

Lemma num_ltb_sqrt (r r' : Z) : num_ltb (Sqrt r) (Sqrt r') = (r <? r').
Proof. reflexivity. Qed.

(** The loop always terminates normally, having found the first vertex of
    least distance below 99999, if there is one. *)
Lemma scan_hull_found (rect : Rect) (hull : list point) :
  exists s, scan_hull rect hull scan_init = Some s /\ found rect hull s.
Proof.
  induction hull as [| p l IH] using rev_ind.
  - exists scan_init. split; [reflexivity |].
    left. split; [reflexivity | intros q []].
  - destruct IH as (s & Hs & Hf).
    rewrite scan_hull_app, Hs. cbn [scan_hull]. rewrite scan_step_eq.
    eexists. split; [reflexivity |].
    destruct Hf as [[-> Hall] | (l1 & p0 & l2 & -> & -> & Hlt & H1 & H2)].
    + cbn [min_dist scan_init]. rewrite num_ltb_cap. destruct (Z.ltb_spec (gap2 rect p) (99999 * 99999)) as [Hp | Hp].
      * right. exists l, p, []. split_all.
        -- intros q Hq. specialize (Hall q Hq). lia.
        -- intros q [].
      * left. split; [reflexivity |].
        intros q Hq. apply in_app_or in Hq.
        destruct Hq as [Hq | [<- | []]]; auto.
    + cbn [min_dist]. rewrite num_ltb_sqrt.
      destruct (Z.ltb_spec (gap2 rect p) (gap2 rect p0)) as [Hp | Hp].
      * right. exists (l1 ++ p0 :: l2), p, []. split_all.
        -- lia.
        -- intros q Hq. apply in_app_or in Hq.
           destruct Hq as [Hq | [<- | Hq]];
             [specialize (H1 q Hq) | | specialize (H2 q Hq)]; lia.
        -- intros q [].
      * right. exists l1, p0, (l2 ++ [p]). split_all.
        -- now rewrite <- app_assoc.
        -- intros q Hq. apply in_app_or in Hq.
           destruct Hq as [Hq | [<- | []]]; auto.
Qed.

(** What [found] says about the minimum alone. *)
Lemma found_min (rect : Rect) (hull : list point) (s : Scan) :
  found rect hull s ->
  (s = scan_init /\ forall q, In q hull -> 99999 * 99999 <= gap2 rect q)
  \/
  (exists p, In p hull /\
     s = mkScan (Sqrt (gap2 rect p)) p (box_point rect p) /\
     gap2 rect p < 99999 * 99999 /\
     forall q, In q hull -> gap2 rect p <= gap2 rect q).
Proof.
  intros [H | (l1 & p & l2 & -> & -> & Hlt & H1 & H2)]; [now left | right].
  exists p. split_all.
  - apply in_or_app. right. now left.
  - intros q Hq. apply in_app_or in Hq.
    destruct Hq as [Hq | [<- | Hq]];
      [specialize (H1 q Hq) | | specialize (H2 q Hq)]; lia.
Qed.

Lemma found_wf (rect : Rect) (hull : list point) (s : Scan) :
  found rect hull s -> wf (min_dist s).
Proof.
  intros [[-> _] | (l1 & p & l2 & _ & -> & _)]; simpl; auto using gap2_nonneg.
Qed.

(** [calculate_logic] never raises. *)
Lemma calculate_logic_scan (pts : list point) (rect : Rect) :
  exists s, found rect pts s /\
            calculate_logic (Some pts) rect = Some (thresholds s).
Proof.
  destruct (scan_hull_found rect pts) as (s & Hs & Hf).
  exists s. split; [assumption |]. simpl. now rewrite Hs.
Qed.

Lemma thresholds_fields (s : Scan) :
  distance (thresholds s) = min_dist s /\
  hand_point (thresholds s) = closest_hand_point s /\
  zone_point (thresholds s) = closest_box_point s.
Proof.
  unfold thresholds.
  destruct (num_leb _ _); [| destruct (num_ltb _ _)]; simpl; auto.
Qed.

(** The state is the bucket of the real number [min_dist] denotes. *)
Lemma thresholds_state (s : Scan) :
  wf (min_dist s) -> bucket (num_R (min_dist s)) (state (thresholds s)).
Proof.
  intro Hwf. unfold bucket, thresholds.
  pose proof (num_leb_spec (min_dist s) (Int 10) Hwf I) as Hle.
  pose proof (num_ltb_spec (min_dist s) (Int 150) Hwf I) as Hlt.
  simpl num_R in Hle, Hlt.
  destruct (num_leb (min_dist s) (Int 10)) eqn:E1.
  - assert (num_R (min_dist s) <= 10)%R by now apply Hle.
    simpl. repeat split; intros; trivial; lra.
  - assert (~ (num_R (min_dist s) <= 10)%R) by (intro H; apply Hle in H; discriminate).
    destruct (num_ltb (min_dist s) (Int 150)) eqn:E2.
    + assert (num_R (min_dist s) < 150)%R by now apply Hlt.
      simpl. repeat split; intros; trivial; lra.
    + assert (~ (num_R (min_dist s) < 150)%R) by (intro H'; apply Hlt in H'; discriminate).
      simpl. repeat split; intros; trivial; lra.
Qed.

Lemma calculate_logic_total (hull : option (list point)) (rect : Rect) :
  exists r, calculate_logic hull rect = Some r.
Proof.
  destruct hull as [pts |]; [| eexists; reflexivity].
  destruct (calculate_logic_scan pts rect) as (s & _ & H). eauto.
Qed.

(** ** The classifier *)


(** The boundaries on concrete hulls: distance 10, just above 10, just
    below 150, and 150. *)
Example boundary_10_is_danger :
  calculate_logic (Some [(90, 150); (0, 0)]) (100, 100, 200, 200)
  = Some (mkResult STATE_DANGER (Sqrt 100) (90, 150) (100, 150)).
Proof. reflexivity. Qed.

Example above_10_is_warning :
  calculate_logic (Some [(90, 99); (0, 0)]) (100, 100, 200, 200)
  = Some (mkResult STATE_WARNING (Sqrt 101) (90, 99) (100, 100)).
Proof. reflexivity. Qed.

Example below_150_is_warning :
  calculate_logic (Some [(449, 150); (1000, 1000)]) (100, 100, 200, 200)
  = Some (mkResult STATE_WARNING (Sqrt 22201) (449, 150) (300, 150)).
Proof. reflexivity. Qed.

Example boundary_150_is_safe :
  calculate_logic (Some [(450, 150); (1000, 1000)]) (100, 100, 200, 200)
  = Some (mkResult STATE_SAFE (Sqrt 22500) (450, 150) (300, 150)).
Proof. reflexivity. Qed.

(** C3. Without a hull the result is the fixed tuple SAFE, 0, (0, 0),
    (0, 0), whatever the rectangle, and nothing is raised. *)
Theorem calculate_logic_no_hull (rect : Rect) :
  calculate_logic None rect
  = Some (mkResult STATE_SAFE (Int 0) (0, 0) (0, 0)).
Proof. reflexivity. Qed.

(** ** The segmenter and the frame loop *)

Lemma Qgtb_true (a b : Q) : Qgtb a b = true <-> (b < a)%Q.
Proof.
  unfold Qgtb. rewrite negb_true_iff. split; intro H.
  - apply Qnot_le_lt. intro Hle. apply Qle_bool_iff in Hle. congruence.
  - destruct (Qle_bool a b) eqn:E; [| reflexivity].
    apply Qle_bool_iff in E. exfalso. exact (Qlt_not_le _ _ H E).
Qed.

Lemma Qgtb_false (a b : Q) : Qgtb a b = false <-> (a <= b)%Q.
Proof.
  unfold Qgtb. rewrite negb_false_iff. apply Qle_bool_iff.
Qed.

(** [max_from] returns an item of greatest key. *)
Lemma max_from_spec {A : Type} (key : A -> Q) (l : list A) (best : A) :
  In (max_from key best l) (best :: l) /\
  forall x, In x (best :: l) -> (key x <= key (max_from key best l))%Q.
Proof.
  revert best. induction l as [| y rest IH]; intro best; cbn [max_from].
  - split; [now left |]. intros x [<- | []]. apply Qle_refl.
  - destruct (IH (if Qgtb (key y) (key best) then y else best)) as [Hin Hmax].
    set (b' := if Qgtb (key y) (key best) then y else best) in *.
    assert (key best <= key b' /\ key y <= key b')%Q as [Hb Hy].
    { subst b'. destruct (Qgtb (key y) (key best)) eqn:E.
      - apply Qgtb_true in E. split; [now apply Qlt_le_weak | apply Qle_refl].
      - apply Qgtb_false in E. split; [apply Qle_refl | exact E]. }
    split.
    + destruct Hin as [Hin | Hin]; [| right; now right].
      rewrite <- Hin. subst b'.
      destruct (Qgtb (key y) (key best)); [right; now left | now left].
    + intros x [<- | [<- | Hx]].
      * eapply Qle_trans; [exact Hb | apply Hmax; now left].
      * eapply Qle_trans; [exact Hy | apply Hmax; now left].
      * apply Hmax. now right.
Qed.

Section VisionProperties.

Context {cv : OpenCV}.

(** C5, amended.  [process_frame] returns no hull exactly when no contour
    is found or the area of a contour of maximum area is at most 3000; in
    every other case it returns the convex hull of a contour of maximum
    area, whose area is then strictly above 3000. *)
Theorem process_frame_none_iff (frame : Image) :
  (process_frame frame = None <->
   contours_of frame = [] \/
   exists m, max_area_contour (contours_of frame) m /\
             (contourArea m <= 3000 # 1)%Q) /\
  (forall hull, process_frame frame = Some hull ->
   exists m, max_area_contour (contours_of frame) m /\
             (3000 # 1 < contourArea m)%Q /\
             hull = convexHull m).
Proof.
  unfold process_frame.
  destruct (contours_of frame) as [| c rest].
  - split; [| discriminate]. split; auto.
  - pose proof (max_from_spec contourArea rest c) as Hmax.
    set (m0 := max_from contourArea c rest) in *.
    assert (max_area_contour (c :: rest) m0) as Hm0 by exact Hmax.
    cbv zeta. destruct (Qgtb (contourArea m0) (3000 # 1)) eqn:E.
    + apply Qgtb_true in E. split.
      * split; [discriminate |].
        intros [H | (m & [_ Hm] & Hle)]; [discriminate |].
        exfalso. apply (Qlt_not_le _ _ E).
        eapply Qle_trans; [apply Hm; apply Hm0 | exact Hle].
      * intros hull [= <-]. exists m0. auto.
    + apply Qgtb_false in E. split; [| discriminate].
      split; auto. intros _. right. exists m0. auto.
Qed.

(** Once [self.danger_zone_rect] holds a rectangle, no pass of the loop
    changes it, and every pass works with it. *)
Lemma run_loop_keeps_zone (z : Rect) (ticks : list Tick) :
  exists shown,
    run_loop (Some z) ticks = Some (Some z, shown) /\
    Forall (fun s => shown_zone s = z) shown.
Proof.
  induction ticks as [| t rest IH]; cbn [run_loop].
  - exists []. auto.
  - destruct (ret t); cbn [negb]; [| exists []; auto].
    destruct (shape (flip (frame_read t) 1)) as [h w].
    destruct (calculate_logic_total (process_frame (flip (frame_read t) 1)) z)
      as [res ->].
    destruct (Z.land (key t) 255 =? ord_q).
    + eexists. split; [reflexivity |]. auto.
    + destruct IH as (shown & -> & Hall). cbn [fst snd].
      eexists. split; [reflexivity |]. auto.
Qed.

(** C6. The danger zone is computed by the first pass of the loop, from
    the size of the frame that pass reads; every pass, whatever the size
    of its frame, works with that rectangle, and it is the rectangle the
    system holds when the loop ends. *)
Theorem danger_zone_computed_once (t : Tick) (rest : list Tick) :
  ret t = true ->
  exists shown,
    run (t :: rest)
    = Some (Some (zone_for (fst (shape (flip (frame_read t) 1)))
                           (snd (shape (flip (frame_read t) 1)))), shown) /\
    shown <> [] /\
    Forall (fun s => shown_zone s
                     = zone_for (fst (shape (flip (frame_read t) 1)))
                                (snd (shape (flip (frame_read t) 1)))) shown.
Proof.
  intro Hret. unfold run. cbn [run_loop]. rewrite Hret. cbn [negb].
  destruct (shape (flip (frame_read t) 1)) as [h w]. cbn [fst snd].
  destruct (calculate_logic_total (process_frame (flip (frame_read t) 1))
                                  (zone_for h w)) as [res ->].
  destruct (Z.land (key t) 255 =? ord_q).
  - eexists. split; [reflexivity |]. split; [discriminate | auto].
  - destruct (run_loop_keeps_zone (zone_for h w) rest) as (shown & -> & Hall).
    cbn [fst snd]. eexists. split; [reflexivity |].
    split; [discriminate | auto].
Qed.

End VisionProperties.

(** C5, as stated, fails on a frame whose only contour encloses exactly
    3000: the area is not below 3000, and the contour is rejected. *)
Lemma area_3000_is_rejected :
  process_frame (cv := synthetic_cv) ((480, 640), [box_60_50]) = None /\
  contours_of (cv := synthetic_cv) ((480, 640), [box_60_50]) = [box_60_50] /\
  max_area_contour (cv := synthetic_cv) [box_60_50] box_60_50 /\
  (contourArea (OpenCV := synthetic_cv) box_60_50 == 3000 # 1)%Q /\
  ~ (contourArea (OpenCV := synthetic_cv) box_60_50 < 3000 # 1)%Q.
Proof.
  split; [reflexivity |]. split; [reflexivity |]. split.
  - split; [now left |]. intros c [<- | []]. apply Qle_refl.
  - split; [reflexivity |]. intro H. vm_compute in H. discriminate H.
Qed.

Example run_three_ticks :
  run three_ticks
  = Some (Some (416, 120, 200, 200),
          [ mkShown (416, 120, 200, 200) None
              (mkResult STATE_SAFE (Int 0) (0, 0) (0, 0));
            mkShown (416, 120, 200, 200) (Some box_100_100)
              (mkResult STATE_WARNING (Sqrt 256) (400, 300) (416, 300));
            mkShown (416, 120, 200, 200) None
              (mkResult STATE_SAFE (Int 0) (0, 0) (0, 0)) ]).
Proof. vm_compute. reflexivity. Qed.

Lemma danger_zone_computed_once_witness :
  ret (cv := synthetic_cv) (mkTick true ((480, 640), []) 255) = true /\
  exists shown,
    run three_ticks = Some (Some (zone_for 480 640), shown) /\
    shown <> [] /\
    Forall (fun s => shown_zone s = zone_for 480 640) shown.
Proof.
  split; [reflexivity |].
  exact (danger_zone_computed_once (cv := synthetic_cv)
           (mkTick true ((480, 640), []) 255) (tl three_ticks) eq_refl).
Defined.

(** ** Translation *)





Lemma thresholds_state_eq (s s' : Scan) :
  min_dist s' = min_dist s -> state (thresholds s') = state (thresholds s).
Proof.
  intro H. unfold thresholds. rewrite H.
  destruct (num_leb _ _); [| destruct (num_ltb _ _)]; reflexivity.
Qed.



Example translated_hull :
  calculate_logic (shift_hull (-30, 12) (Some [(50, 100); (60, 90)]))
                  (shift_rect (-30, 12) (100, 100, 200, 200))
  = Some (mkResult STATE_WARNING (Sqrt 1700) (30, 102) (70, 112)) /\
  calculate_logic (Some [(50, 100); (60, 90)]) (100, 100, 200, 200)
  = Some (mkResult STATE_WARNING (Sqrt 1700) (60, 90) (100, 100)).
Proof. split; reflexivity. Qed.

(** ** Ties, the initial 99999, and the points returned *)

(** The first vertex of least distance is determined by the hull. *)
Lemma found_first_minimum (rect : Rect) (l1 l2 : list point) (p : point) (s : Scan) :
  found rect (l1 ++ p :: l2) s ->
  gap2 rect p < 99999 * 99999 ->
  (forall q, In q l1 -> gap2 rect p < gap2 rect q) ->
  (forall q, In q l2 -> gap2 rect p <= gap2 rect q) ->
  s = mkScan (Sqrt (gap2 rect p)) p (box_point rect p).
Proof.
  intros [[_ Hall] | (l1' & p' & l2' & Heq & -> & Hlt' & H1' & H2')] Hlt H1 H2.
  - specialize (Hall p (in_elt p l1 l2)). lia.
  - apply app_eq_app in Heq.
    destruct Heq as (l & [[Hl1 Hl] | [Hl1 Hl]]); destruct l as [| x l];
      cbn [app] in Hl; injection Hl as Hx Hl2.
    + now subst.
    + assert (In p' l1) as Hin by (rewrite Hl1, Hx; apply in_elt).
      assert (In p l2') as Hin' by (rewrite Hl2; apply in_elt).
      specialize (H1 p' Hin). specialize (H2' p Hin'). lia.
    + now subst.
    + assert (In p l1') as Hin by (rewrite Hl1, Hx; apply in_elt).
      assert (In p' l2) as Hin' by (rewrite Hl2; apply in_elt).
      specialize (H1' p Hin). specialize (H2 p' Hin'). lia.
Qed.

(** The minimum found depends on the set of vertices only. *)
Lemma found_min_dist_unique (rect : Rect) (pts pts' : list point) (s s' : Scan) :
  (forall q, In q pts -> In q pts') ->
  (forall q, In q pts' -> In q pts) ->
  found rect pts s -> found rect pts' s' ->
  min_dist s = min_dist s'.
Proof.
  intros Hsub Hsup Hf Hf'.
  apply found_min in Hf. apply found_min in Hf'.
  destruct Hf as [[-> Hall] | (p & Hp & -> & Hlt & Hmin)];
    destruct Hf' as [[-> Hall'] | (p' & Hp' & -> & Hlt' & Hmin')];
    cbn [min_dist scan_init].
  - reflexivity.
  - specialize (Hall p' (Hsup p' Hp')). lia.
  - specialize (Hall' p (Hsub p Hp)). lia.
  - specialize (Hmin p' (Hsup p' Hp')). specialize (Hmin' p (Hsub p Hp)).
    f_equal. lia.
Qed.

Example tie_first_wins :
  calculate_logic (Some [(40, 100); (50, 150); (50, 100); (350, 120)])
                  (100, 100, 200, 200)
  = Some (mkResult STATE_WARNING (Sqrt 2500) (50, 150) (100, 150)) /\
  calculate_logic (Some [(350, 120); (50, 100); (40, 100); (50, 150)])
                  (100, 100, 200, 200)
  = Some (mkResult STATE_WARNING (Sqrt 2500) (350, 120) (300, 120)).
Proof. split; reflexivity. Qed.

(** C10. With a hull, whenever the distance returned is strictly below
    99999, the hand point returned is a vertex of the hull and the zone
    point returned is that vertex clamped to the rectangle; for a
    rectangle of width [rw >= 0] and height [rh >= 0] it lies within
    [rx, rx + rw] x [ry, ry + rh]. *)
Theorem reported_points_on_hull_and_box
  (pts : list point) (rx ry rw rh : Z) (r : ProximityResult) :
  calculate_logic (Some pts) (rx, ry, rw, rh) = Some r ->
  (num_R (distance r) < 99999)%R ->
  In (hand_point r) pts /\
  zone_point r = box_point (rx, ry, rw, rh) (hand_point r) /\
  zone_point r = (clamp (fst (hand_point r)) rx (rx + rw),
                  clamp (snd (hand_point r)) ry (ry + rh)) /\
  (0 <= rw -> rx <= fst (zone_point r) <= rx + rw) /\
  (0 <= rh -> ry <= snd (zone_point r) <= ry + rh).
Proof.
  intros Hr Hlt.
  destruct (calculate_logic_scan pts (rx, ry, rw, rh)) as (s & Hf & Hr').
  rewrite Hr in Hr'. injection Hr' as ->.
  destruct (thresholds_fields s) as (Hd & -> & ->). rewrite Hd in Hlt.
  apply found_min in Hf.
  destruct Hf as [[-> _] | (p & Hp & -> & _ & _)].
  - simpl in Hlt. exfalso. exact (Rlt_irrefl _ Hlt).
  - cbn [closest_hand_point closest_box_point].
    destruct p as [px py]. unfold box_point, clamp. cbn [fst snd].
    split_all; intros; lia.
Qed.

Lemma reported_points_on_hull_and_box_witness :
  calculate_logic (Some [(400, 400); (50, 100)]) (100, 100, 200, 200)
  = Some (mkResult STATE_WARNING (Sqrt 2500) (50, 100) (100, 100)) /\
  Rlt (num_R (Sqrt 2500)) 99999 /\
  In (50, 100) [(400, 400); (50, 100)] /\
  (100, 100) = box_point (100, 100, 200, 200) (50, 100) /\
  (100, 100) = (clamp 50 100 (100 + 200), clamp 100 100 (100 + 200)) /\
  (0 <= 200 -> 100 <= 100 <= 100 + 200) /\
  (0 <= 200 -> 100 <= 100 <= 100 + 200).
Proof.
  assert (Rlt (num_R (Sqrt 2500)) 99999) as Hlt.
  { apply (num_ltb_spec (Sqrt 2500) (Int 99999)); simpl; auto; lia. }
  split; [reflexivity |]. split; [exact Hlt |].
  exact (reported_points_on_hull_and_box [(400, 400); (50, 100)]
           100 100 200 200
           (mkResult STATE_WARNING (Sqrt 2500) (50, 100) (100, 100))
           eq_refl Hlt).
Defined.

(** * Further properties of the code *)

(** ** The geometry of [calculate_logic] *)

Lemma bucket_inv (d : R) (s : SafetyState) :
  bucket d s ->
  (s = STATE_DANGER <-> (d <= 10)%R) /\
  (s = STATE_WARNING <-> (10 < d < 150)%R) /\
  (s = STATE_SAFE <-> (150 <= d)%R).
Proof.
  intros (Hd & Hw & Hs).
  destruct (Rle_dec d 10) as [H1 | H1].
  - rewrite (Hd H1). split_all; split; intro H; trivial; try discriminate; lra.
  - destruct (Rlt_dec d 150) as [H2 | H2].
    + assert (10 < d < 150)%R as H3 by lra. rewrite (Hw H3).
      split_all; split; intro H; trivial; try discriminate; lra.
    + assert (150 <= d)%R as H3 by lra. rewrite (Hs H3).
      split_all; split; intro H; trivial; try discriminate; lra.
Qed.

Lemma clamp_nearest (v lo hi q : Z) :
  lo <= q <= hi -> (v - clamp v lo hi) ^ 2 <= (v - q) ^ 2.
Proof.
  intro Hq. unfold clamp. rewrite !Z.pow_2_r.
  set (c := Z.max lo (Z.min v hi)).
  assert ((v < lo /\ c = lo) \/ (hi < v /\ c = hi) \/ c = v) as Hc
    by (subst c; lia).
  destruct Hc as [[? ->] | [[? ->] | ->]].
  - assert (0 <= (q - lo) * (q + lo - 2 * v))
      by (apply Z.mul_nonneg_nonneg; lia). lia.
  - assert (0 <= (hi - q) * (2 * v - q - hi))
      by (apply Z.mul_nonneg_nonneg; lia). lia.
  - rewrite Z.sub_diag. cbn. apply Z.square_nonneg.
Qed.

Lemma clamp_in_range (v lo hi : Z) : lo <= hi -> lo <= clamp v lo hi <= hi.
Proof. unfold clamp. lia. Qed.


Lemma gap2_le_sq_dist (rect : Rect) (p q : point) :
  in_rect rect q -> gap2 rect p <= sq_dist p q.
Proof.
  destruct rect as [[[rx ry] rw] rh], p as [px py], q as [qx qy].
  unfold in_rect, gap2, box_point, sq_dist. cbn [fst snd]. intros [Hx Hy].
  pose proof (clamp_nearest px rx (rx + rw) qx Hx).
  pose proof (clamp_nearest py ry (ry + rh) qy Hy). lia.
Qed.

Lemma euclid_le_iff (p q p' q' : point) :
  (euclid p q <= euclid p' q')%R <-> sq_dist p q <= sq_dist p' q'.
Proof.
  rewrite !euclid_sq_dist, <- num_leb_spec by apply sq_dist_nonneg.
  simpl. apply Z.leb_le.
Qed.

(** X1. The clamped point is a point of the rectangle, and no point of the
    rectangle is closer to the hull point. *)
Theorem box_point_is_nearest (rect : Rect) (p q : point) :
  in_rect rect q ->
  in_rect rect (box_point rect p) /\
  (gap rect p <= euclid p q)%R.
Proof.
  intro Hq. split.
  - destruct rect as [[[rx ry] rw] rh], p as [px py], q as [qx qy].
    unfold in_rect, box_point in *. cbn [fst snd] in *.
    split; apply clamp_in_range; lia.
  - unfold gap. apply euclid_le_iff. now apply gap2_le_sq_dist.
Qed.

Lemma box_point_is_nearest_witness :
  in_rect (100, 100, 200, 200) (120, 300) /\
  in_rect (100, 100, 200, 200) (box_point (100, 100, 200, 200) (50, 400)) /\
  Rle (gap (100, 100, 200, 200) (50, 400)) (euclid (50, 400) (120, 300)).
Proof.
  assert (in_rect (100, 100, 200, 200) (120, 300)) as H
    by (unfold in_rect; cbn [fst snd]; lia).
  split; [exact H |].
  exact (box_point_is_nearest (100, 100, 200, 200) (50, 400) (120, 300) H).
Defined.




(** What a result says about the vertices, in real numbers. *)
Lemma calculate_logic_min (pts : list point) (rect : Rect) :
  exists r,
    calculate_logic (Some pts) rect = Some r /\
    bucket (num_R (distance r)) (state r) /\
    ((distance r = Int 99999 /\
      forall q, In q pts -> (99999 <= gap rect q)%R)
     \/
     (exists p, In p pts /\
        num_R (distance r) = gap rect p /\
        (gap rect p < 99999)%R /\
        forall q, In q pts -> (gap rect p <= gap rect q)%R)).
Proof.
  destruct (calculate_logic_scan pts rect) as (s & Hf & Hr).
  exists (thresholds s). split; [exact Hr |].
  destruct (thresholds_fields s) as (-> & _ & _).
  split; [exact (thresholds_state s (found_wf _ _ _ Hf)) |].
  apply found_min in Hf.
  destruct Hf as [[-> Hall] | (p & Hp & -> & Hlt & Hmin)].
  - left. split; [reflexivity |].
    intros q Hq. apply gap_ge_cap_iff. auto.
  - right. exists p. cbn [min_dist]. split_all.
    + symmetry. apply gap_gap2.
    + now apply gap_lt_cap_iff.
    + intros q Hq. apply gap_le_iff. auto.
Qed.






(** ** Scanning a hull in two parts *)







Example two_parts :
  calculate_logic (Some ([(50, 100); (400, 400)] ++ [(350, 120); (60, 90)]))
                  (100, 100, 200, 200)
  = Some (closer (mkResult STATE_WARNING (Sqrt 2500) (50, 100) (100, 100))
                 (mkResult STATE_WARNING (Sqrt 1700) (60, 90) (100, 100))).
Proof. reflexivity. Qed.

(** ** More on the segmenter *)

Lemma max_from_keep {A : Type} (key : A -> Q) (l : list A) (best : A) :
  (forall x, In x l -> (key x <= key best)%Q) ->
  max_from key best l = best.
Proof.
  induction l as [| x l IH]; intro H; cbn [max_from]; [reflexivity |].
  assert (Qgtb (key x) (key best) = false) as ->
    by (apply Qgtb_false; apply H; now left).
  apply IH. intros y Hy. apply H. now right.
Qed.

Lemma max_from_first {A : Type} (key : A -> Q) (l1 l2 : list A) (m : A) :
  forall best,
  (key best < key m)%Q ->
  (forall x, In x l1 -> (key x < key m)%Q) ->
  (forall x, In x l2 -> (key x <= key m)%Q) ->
  max_from key best (l1 ++ m :: l2) = m.
Proof.
  induction l1 as [| x l1 IH]; intros best Hb H1 H2; cbn [app max_from].
  - assert (Qgtb (key m) (key best) = true) as -> by now apply Qgtb_true.
    now apply max_from_keep.
  - apply IH; trivial.
    + destruct (Qgtb (key x) (key best)); [apply H1; now left | exact Hb].
    + intros y Hy. apply H1. now right.
Qed.

Section SegmenterProperties.

Context {cv : OpenCV}.

(** X8. A hull is returned exactly when some contour of the mask encloses
    more than 3000. *)
Theorem process_frame_some_iff (frame : Image) :
  (exists hull, process_frame frame = Some hull) <->
  (exists c, In c (contours_of frame) /\ (3000 # 1 < contourArea c)%Q).
Proof.
  unfold process_frame.
  destruct (contours_of frame) as [| c0 rest].
  - split; [intros [hull H]; discriminate H | intros (c & [] & _)].
  - destruct (max_from_spec contourArea rest c0) as [Hin Hmax].
    set (m0 := max_from contourArea c0 rest) in *. cbv zeta.
    destruct (Qgtb (contourArea m0) (3000 # 1)) eqn:E.
    + apply Qgtb_true in E. split; [| eauto].
      intros _. exists m0. auto.
    + apply Qgtb_false in E. split; [intros [hull H]; discriminate H |].
      intros (c & Hc & Hlt). exfalso.
      apply (Qlt_not_le _ _ Hlt).
      eapply Qle_trans; [apply Hmax; exact Hc | exact E].
Qed.

(** X9. Of several contours of the greatest area, the hull returned is that
    of the first one in the order [findContours] lists them. *)
Theorem process_frame_first_largest
  (frame : Image) (l1 l2 : list Contour) (m : Contour) :
  contours_of frame = l1 ++ m :: l2 ->
  (forall c, In c l1 -> (contourArea c < contourArea m)%Q) ->
  (forall c, In c l2 -> (contourArea c <= contourArea m)%Q) ->
  (3000 # 1 < contourArea m)%Q ->
  process_frame frame = Some (convexHull m).
Proof.
  intros Hcs H1 H2 Hbig. unfold process_frame. rewrite Hcs.
  assert (match l1 ++ m :: l2 with
          | [] => None
          | c :: rest => Some (max_from contourArea c rest)
          end = Some m) as Hm.
  { destruct l1 as [| c l1]; cbn [app]; f_equal.
    - now apply max_from_keep.
    - apply max_from_first; trivial.
      + apply H1. now left.
      + intros x Hx. apply H1. now right. }
  destruct (l1 ++ m :: l2) as [| c rest]; [discriminate Hm |].
  injection Hm as ->. cbv zeta.
  apply Qgtb_true in Hbig. now rewrite Hbig.
Qed.

End SegmenterProperties.

Lemma process_frame_first_largest_witness :
  contours_of (cv := synthetic_cv)
    ((480, 640), [box_60_50; box_100_100; box_100_100_b])
  = [box_60_50] ++ box_100_100 :: [box_100_100_b] /\
  process_frame (cv := synthetic_cv)
    ((480, 640), [box_60_50; box_100_100; box_100_100_b])
  = Some box_100_100.
Proof.
  split; [reflexivity |].
  apply (process_frame_first_largest (cv := synthetic_cv)
           ((480, 640), [box_60_50; box_100_100; box_100_100_b])
           [box_60_50] [box_100_100_b] box_100_100 eq_refl).
  - intros c [<- | []]. reflexivity.
  - intros c [<- | []]. vm_compute. discriminate.
  - reflexivity.
Defined.

(** ** More on the frame loop *)

Section LoopProperties.

Context {cv : OpenCV}.

Lemma run_loop_failed_read (l1 l2 : list Tick) (t : Tick) :
  ret t = false ->
  forall z, run_loop z (l1 ++ t :: l2) = run_loop z l1.
Proof.
  intro Hret. induction l1 as [| a l1 IH]; intro z; cbn [app run_loop].
  - now rewrite Hret.
  - destruct (ret a); cbn [negb]; [| reflexivity].
    destruct (shape (flip (frame_read a) 1)) as [h w].
    destruct (calculate_logic _ _); [| reflexivity].
    destruct (Z.land (key a) 255 =? ord_q); [reflexivity |].
    now rewrite IH.
Qed.

Lemma run_loop_quit_key (l1 l2 : list Tick) (t : Tick) :
  Z.land (key t) 255 = ord_q ->
  forall z, run_loop z (l1 ++ t :: l2) = run_loop z (l1 ++ [t]).
Proof.
  intro Hkey. induction l1 as [| a l1 IH]; intro z; cbn [app run_loop].
  - destruct (ret t); cbn [negb]; [| reflexivity].
    destruct (shape (flip (frame_read t) 1)) as [h w].
    destruct (calculate_logic _ _); [| reflexivity].
    rewrite Hkey, Z.eqb_refl. reflexivity.
  - destruct (ret a); cbn [negb]; [| reflexivity].
    destruct (shape (flip (frame_read a) 1)) as [h w].
    destruct (calculate_logic _ _); [| reflexivity].
    destruct (Z.land (key a) 255 =? ord_q); [reflexivity |].
    now rewrite IH.
Qed.

(** X10. A failed read ends the loop: nothing that would be read after it has
    any effect on what is shown or on the danger zone. *)
Theorem run_stops_at_failed_read (l1 l2 : list Tick) (t : Tick) :
  ret t = false -> run (l1 ++ t :: l2) = run l1.
Proof. intro H. unfold run. now apply run_loop_failed_read. Qed.

(** X11. The quit key ends the loop after the pass that sees it: nothing that
    would be read afterwards has any effect. *)
Theorem run_stops_at_quit_key (l1 l2 : list Tick) (t : Tick) :
  Z.land (key t) 255 = ord_q -> run (l1 ++ t :: l2) = run (l1 ++ [t]).
Proof. intro H. unfold run. now apply run_loop_quit_key. Qed.

End LoopProperties.

Lemma run_stops_at_failed_read_witness :
  ret (cv := synthetic_cv) (mkTick false ((480, 640), []) 0) = false /\
  run (firstn 2 three_ticks
       ++ mkTick false ((480, 640), []) 0 :: skipn 2 three_ticks)
  = run (firstn 2 three_ticks).
Proof.
  split; [reflexivity |].
  exact (run_stops_at_failed_read (cv := synthetic_cv)
           (firstn 2 three_ticks) (skipn 2 three_ticks)
           (mkTick false ((480, 640), []) 0) eq_refl).
Defined.

Lemma run_stops_at_quit_key_witness :
  Z.land (key (cv := synthetic_cv) (mkTick true ((240, 320), []) 113)) 255
  = ord_q /\
  run (firstn 2 three_ticks
       ++ mkTick true ((240, 320), []) 113 :: skipn 3 three_ticks)
  = run (firstn 2 three_ticks ++ [mkTick true ((240, 320), []) 113]).
Proof.
  split; [reflexivity |].
  exact (run_stops_at_quit_key (cv := synthetic_cv)
           (firstn 2 three_ticks) (skipn 3 three_ticks)
           (mkTick true ((240, 320), []) 113) eq_refl).
Defined.

(** ** Where the danger zone lies *)

(** X13. The zone is always 200 by 200 with its origin inside the frame; it
    lies wholly inside the frame exactly when the frame is at least 569
    wide and 266 high. *)
Theorem zone_within_frame (h w : Z) :
  0 <= h -> 0 <= w ->
  exists zx zy,
    zone_for h w = (zx, zy, 200, 200) /\
    0 <= zx <= w /\ 0 <= zy <= h /\
    (zx + 200 <= w <-> 569 <= w) /\
    (zy + 200 <= h <-> 266 <= h).
Proof.
  intros Hh Hw. unfold zone_for, int_times_065, int_times_025.
  eexists. eexists. split; [reflexivity |].
  rewrite !Z.quot_div_nonneg by lia.
  pose proof (Z.div_mod (w * 65) 100) as Hx.
  pose proof (Z.mod_pos_bound (w * 65) 100) as Hx'.
  pose proof (Z.div_mod (h * 25) 100) as Hy.
  pose proof (Z.mod_pos_bound (h * 25) 100) as Hy'.
  lia.
Qed.

Lemma zone_within_frame_witness :
  0 <= 480 /\ 0 <= 640 /\
  exists zx zy,
    zone_for 480 640 = (zx, zy, 200, 200) /\
    0 <= zx <= 640 /\ 0 <= zy <= 480 /\
    (zx + 200 <= 640 <-> 569 <= 640) /\
    (zy + 200 <= 480 <-> 266 <= 480).
Proof.
  assert (0 <= 480) as H1 by lia. assert (0 <= 640) as H2 by lia.
  split; [exact H1 |]. split; [exact H2 |].
  exact (zone_within_frame 480 640 H1 H2).
Defined.

(** ** The overlay *)

Lemma thresholds_sqrt (s : Scan) (g : Z) :
  min_dist s = Sqrt g ->
  state (thresholds s)
  = if g <=? 100 then STATE_DANGER
    else if g <? 22500 then STATE_WARNING else STATE_SAFE.
Proof.
  intro H. unfold thresholds. rewrite H. cbn [num_leb num_ltb].
  change (0 <=? 10) with true. change (0 <? 150) with true.
  change (10 * 10) with 100. change (150 * 150) with 22500. cbn [andb].
  destruct (g <=? 100); [| destruct (g <? 22500)]; reflexivity.
Qed.

(** When the state is not SAFE, a vertex closer than 150 was found. *)
Lemma unsafe_result (pts : list point) (zone : Rect) (res : ProximityResult) :
  calculate_logic (Some pts) zone = Some res ->
  state res <> STATE_SAFE ->
  exists p,
    In p pts /\
    hand_point res = p /\
    zone_point res = box_point zone p /\
    distance res = Sqrt (gap2 zone p) /\
    0 <= gap2 zone p < 22500 /\
    (state res = STATE_DANGER -> gap2 zone p <= 100) /\
    (state res = STATE_WARNING -> 100 < gap2 zone p).
Proof.
  intros Hres Hns.
  destruct (calculate_logic_scan pts zone) as (s & Hf & Hr).
  rewrite Hres in Hr. injection Hr as ->.
  apply found_min in Hf.
  destruct Hf as [[-> _] | (p & Hp & -> & _ & _)].
  - exfalso. apply Hns. reflexivity.
  - pose proof (thresholds_sqrt
                  (mkScan (Sqrt (gap2 zone p)) p (box_point zone p))
                  (gap2 zone p) eq_refl) as Hst.
    destruct (thresholds_fields
                (mkScan (Sqrt (gap2 zone p)) p (box_point zone p)))
      as (Hd & Hh & Hz).
    cbn [min_dist closest_hand_point closest_box_point] in Hd, Hh, Hz.
    exists p. pose proof (gap2_nonneg zone p) as Hnn.
    rewrite Hst in *. split_all.
    + destruct (Z.leb_spec (gap2 zone p) 100); [lia |].
      destruct (Z.ltb_spec (gap2 zone p) 22500); [lia |].
      exfalso. apply Hns. reflexivity.
    + destruct (Z.leb_spec (gap2 zone p) 100); [lia |].
      destruct (gap2 zone p <? 22500); discriminate.
    + destruct (Z.leb_spec (gap2 zone p) 100); [discriminate | lia].
Qed.

Lemma in_draw_overlays
  (d : Draw) (h w : Z) (zone : Rect) (hull : option (list point))
  (res : ProximityResult) :
  In d (draw_overlays h w zone hull res) ->
  (exists p q c, d = DrawRectangle p q c 3) \/
  (exists p c, d = DrawText "VIRTUAL OBJECT" p (6 # 10) c 2) \/
  In d (hand_draws hull res) \/
  In d (alert_draws h w (state res)) \/
  d = Imshow "Hand Safety Monitor".
Proof.
  destruct zone as [[[ox oy] ow] oh]. unfold draw_overlays.
  intros [<- | [<- | H]]; [left; eauto | right; left; eauto |].
  cbn [app] in H.
  apply in_app_or in H. destruct H as [H | H]; [auto |].
  apply in_app_or in H. destruct H as [H | [<- | []]]; auto.
Qed.

Lemma in_hand_draws
  (d : Draw) (hull : option (list point)) (res : ProximityResult) :
  In d (hand_draws hull res) ->
  exists pts, hull = Some pts /\
    (d = DrawContours pts (-1) (255, 255, 0) 2 \/
     (state res <> STATE_SAFE /\ In d (interaction_draws res))).
Proof.
  destruct hull as [pts |]; [| intros []]. cbn [hand_draws].
  intros [<- | H]; exists pts; split; auto.
  right. destruct (state res); cbn in H; [contradiction H | |];
    (split; [discriminate | exact H]).
Qed.

(** X15. Whenever the state is not SAFE the distance label is drawn next to
    the hand point; the number it shows is the distance rounded down, it
    is between 0 and 149, at most 10 in DANGER and at least 10 in
    WARNING. *)
Theorem pixel_label_range
  (h w : Z) (zone : Rect) (pts : list point) (res : ProximityResult) :
  calculate_logic (Some pts) zone = Some res ->
  state res <> STATE_SAFE ->
  In (DrawText (px_label (distance res))
               (fst (hand_point res) + 10, snd (hand_point res))
               (6 # 10) (255, 255, 255) 2)
     (draw_overlays h w zone (Some pts) res) /\
  0 <= py_int (distance res) <= 149 /\
  (IZR (py_int (distance res)) <= num_R (distance res)
   < IZR (py_int (distance res)) + 1)%R /\
  (state res = STATE_DANGER -> py_int (distance res) <= 10) /\
  (state res = STATE_WARNING -> 10 <= py_int (distance res)).
Proof.
  intros Hres Hns. split.
  - destruct zone as [[[ox oy] ow] oh]. unfold draw_overlays.
    right. right. cbn [app]. apply in_or_app. left.
    cbn [hand_draws]. right.
    destruct (state res); [contradiction Hns; reflexivity | |];
      cbn; auto.
  - destruct (unsafe_result pts zone res Hres Hns)
      as (p & _ & _ & _ & -> & [Hnn Hlt] & Hd & Hw).
    cbn [py_int num_R].
    pose proof (Z.sqrt_spec (gap2 zone p) Hnn) as Hs. cbv zeta in Hs.
    pose proof (Z.sqrt_nonneg (gap2 zone p)) as Hs0.
    set (n := Z.sqrt (gap2 zone p)) in *.
    split; [nia |]. split.
    + split.
      * apply le_sqrt_iff; try now apply IZR_nonneg.
        rewrite <- mult_IZR. apply IZR_le. lia.
      * replace (IZR n + 1)%R with (IZR (n + 1)) by (rewrite plus_IZR; reflexivity).
        apply sqrt_lt_iff; try apply IZR_nonneg; try lia.
        rewrite <- mult_IZR. apply IZR_lt. lia.
    + split; intro H; [specialize (Hd H) | specialize (Hw H)]; nia.
Qed.

Lemma pixel_label_range_witness :
  calculate_logic (Some [(400, 400); (50, 100)]) (100, 100, 200, 200)
  = Some (mkResult STATE_WARNING (Sqrt 2500) (50, 100) (100, 100)) /\
  STATE_WARNING <> STATE_SAFE /\
  In (DrawText "50px" (60, 100) (6 # 10) (255, 255, 255) 2)
     (draw_overlays 480 640 (100, 100, 200, 200)
        (Some [(400, 400); (50, 100)])
        (mkResult STATE_WARNING (Sqrt 2500) (50, 100) (100, 100))) /\
  0 <= 50 <= 149.
Proof.
  assert (STATE_WARNING <> STATE_SAFE) as Hns by discriminate.
  split; [reflexivity |]. split; [exact Hns |].
  destruct (pixel_label_range 480 640 (100, 100, 200, 200)
              [(400, 400); (50, 100)]
              (mkResult STATE_WARNING (Sqrt 2500) (50, 100) (100, 100))
              eq_refl Hns) as (Hin & Hrange & _).
  split; [exact Hin | exact Hrange].
Defined.

Example overlay_of_a_warning :
  draw_overlays 480 640 (416, 120, 200, 200) (Some [(400, 300); (390, 310)])
    (mkResult STATE_WARNING (Sqrt 256) (400, 300) (416, 300))
  = [ DrawRectangle (416, 120) (616, 320) (0, 255, 255) 3;
      DrawText "VIRTUAL OBJECT" (416, 110) (6 # 10) (0, 255, 255) 2;
      DrawContours [(400, 300); (390, 310)] (-1) (255, 255, 0) 2;
      DrawLine (400, 300) (416, 300) (255, 255, 255) 2;
      DrawCircle (400, 300) 8 (0, 0, 255) (-1);
      DrawCircle (416, 300) 5 (255, 255, 255) (-1);
      DrawText "16px" (410, 300) (6 # 10) (255, 255, 255) 2;
      DrawText "WARNING: APPROACHING" (20, 50) 1 (0, 255, 255) 2;
      Imshow "Hand Safety Monitor" ].
Proof. reflexivity. Qed.

(** * The method on either kind of hull *)

(** ** Where line 85 is exact *)

Ltac pow2 :=
  change (2 ^ 31) with 2147483648 in *;
  change (2 ^ 32) with 4294967296 in *.

Lemma fits_int32_iff (z : Z) :
  fits_int32 z = true <-> - 2 ^ 31 <= z < 2 ^ 31.
Proof.
  unfold fits_int32. rewrite andb_true_iff, Z.leb_le, Z.ltb_lt. reflexivity.
Qed.

Lemma wrap32_small (z : Z) : - 2 ^ 31 <= z < 2 ^ 31 -> wrap32 z = z.
Proof.
  intro H. unfold wrap32. pow2. rewrite Z.mod_small; lia.
Qed.

Lemma wrap32_range (z : Z) : - 2 ^ 31 <= wrap32 z < 2 ^ 31.
Proof.
  unfold wrap32. pow2.
  pose proof (Z.mod_pos_bound (z + 2147483648) 4294967296). lia.
Qed.

Lemma float_overflow_large : 99999 * 99999 < float_overflow.
Proof. vm_compute. reflexivity. Qed.

Lemma math_sqrt_int_small (x : Z) :
  0 <= x < 99999 * 99999 -> math_sqrt_int x = Returns (Sqrt x).
Proof.
  intro H. unfold math_sqrt_int. pose proof float_overflow_large.
  destruct (Z.ltb_spec x 0); [lia |].
  destruct (Z.leb_spec float_overflow x); [lia | reflexivity].
Qed.

Lemma small_square (d : Z) : d * d < 2 ^ 31 -> - 2 ^ 31 <= d < 2 ^ 31.
Proof. pow2. nia. Qed.

(** The difference on line 85, when the operands fit and the square does
    not wrap. *)
Lemma coord_diff_exact (k : Ints) (v lo hi : Z) :
  fits_int32 lo = true -> fits_int32 hi = true ->
  (v - clamp v lo hi) * (v - clamp v lo hi) < 2 ^ 31 ->
  coord_diff k v lo hi = Returns (v - clamp v lo hi).
Proof.
  intros Hlo Hhi Hsq. unfold coord_diff. destruct k; [reflexivity |].
  destruct ((lo <? v) && (v <=? hi)) eqn:E.
  - apply andb_true_iff in E. rewrite Z.ltb_lt, Z.leb_le in E.
    f_equal. unfold clamp. lia.
  - assert (clamp v lo hi = lo \/ clamp v lo hi = hi) as Hc.
    { apply andb_false_iff in E. rewrite Z.ltb_ge, Z.leb_gt in E.
      unfold clamp. lia. }
    assert (fits_int32 (clamp v lo hi) = true) as ->
      by (destruct Hc as [-> | ->]; assumption).
    f_equal. apply wrap32_small. now apply small_square.
Qed.

Lemma line_85_exact (k : Ints) (rect : Rect) (p : point) :
  rect_fits rect -> point_exact rect p ->
  line_85 k rect p = Returns (Sqrt (gap2 rect p)).
Proof.
  destruct rect as [[[rx ry] rw] rh], p as [px py].
  intros (Hrx & Hry & Hrx' & Hry') (_ & _ & Hgap).
  unfold gap2, sq_dist, box_point in Hgap |- *. cbn [fst snd] in Hgap |- *.
  rewrite !Z.pow_2_r in Hgap |- *.
  set (dx := px - clamp px rx (rx + rw)) in *.
  set (dy := py - clamp py ry (ry + rh)) in *.
  pose proof (Z.square_nonneg dx) as Hx. pose proof (Z.square_nonneg dy) as Hy.
  unfold line_85.
  rewrite (coord_diff_exact k px rx (rx + rw)) by (trivial; fold dx; lia).
  rewrite (coord_diff_exact k py ry (ry + rh)) by (trivial; fold dy; lia).
  fold dx dy.
  assert (add_on k (square_on k dx) (square_on k dy) = dx * dx + dy * dy) as ->.
  { destruct k; cbn [add_on square_on]; [reflexivity |].
    rewrite (wrap32_small (dx * dx)), (wrap32_small (dy * dy)) by (pow2; lia).
    apply wrap32_small. pow2. lia. }
  apply math_sqrt_int_small. pow2. lia.
Qed.

Lemma scan_hull_on_exact (k : Ints) (rect : Rect) (pts : list point) :
  exact_domain rect pts ->
  forall s, exists s',
    scan_hull rect pts s = Some s' /\
    scan_hull_on k rect pts s = Returns s'.
Proof.
  intros [Hrect Hpts].
  induction pts as [| p rest IH]; intro s; cbn [scan_hull scan_hull_on].
  - exists s. auto.
  - rewrite scan_step_eq. unfold scan_step_on.
    rewrite (line_85_exact k rect p Hrect) by (apply Hpts; now left).
    apply IH. intros q Hq. apply Hpts. now right.
Qed.

(** On a hull where nothing wraps the method returns, on either kind of
    hull, what it returns with exact arithmetic. *)
Lemma calculate_logic_on_exact
  (k : Ints) (hull : option (list point)) (rect : Rect) :
  hull_exact rect hull ->
  exists r,
    calculate_logic hull rect = Some r /\
    calculate_logic_on k hull rect = Returns r.
Proof.
  destruct hull as [pts |]; cbn [hull_exact]; intro H.
  - destruct (scan_hull_on_exact k rect pts H scan_init) as (s & Hs & Hs').
    exists (thresholds s). cbn [calculate_logic calculate_logic_on].
    now rewrite Hs, Hs'.
  - eexists. split; reflexivity.
Qed.

(** In the exact domain every vertex is closer than 99999. *)
Lemma exact_domain_near (rect : Rect) (pts : list point) (p : point) :
  exact_domain rect pts -> In p pts -> (gap rect p < 99999)%R.
Proof.
  intros [_ H] Hp. destruct (H p Hp) as (_ & _ & Hg).
  apply gap_lt_cap_iff. pow2. lia.
Qed.

(** ** What holds whatever wraps *)

Lemma line_85_returns (k : Ints) (rect : Rect) (p : point) (d : number) :
  line_85 k rect p = Returns d ->
  exists x, d = Sqrt x /\ 0 <= x /\ (k = NumpyInt32 -> x < 2 ^ 31).
Proof.
  destruct rect as [[[rx ry] rw] rh], p as [px py]. unfold line_85.
  destruct (coord_diff k px rx (rx + rw)) as [dx | e]; [| discriminate].
  destruct (coord_diff k py ry (ry + rh)) as [dy | e]; [| discriminate].
  unfold math_sqrt_int.
  destruct (Z.ltb_spec (add_on k (square_on k dx) (square_on k dy)) 0);
    [discriminate |].
  destruct (float_overflow <=? _); [discriminate |].
  intros [= <-]. eexists. split; [reflexivity |]. split; [assumption |].
  intros ->. cbn [add_on]. apply wrap32_range.
Qed.

Lemma scan_step_on_ok (k : Ints) (rect : Rect) (s s' : Scan) (p : point) :
  scan_step_on k rect s p = Returns s' ->
  (scan_ok s -> scan_ok s') /\
  (k = NumpyInt32 -> scan_ok32 s -> scan_ok32 s').
Proof.
  unfold scan_step_on.
  destruct (line_85 k rect p) as [d | e] eqn:E; [| discriminate].
  destruct (line_85_returns k rect p d E) as (x & -> & Hx & Hk).
  destruct (num_ltb (Sqrt x) (min_dist s)) eqn:Hlt; intros [= <-]; [| auto].
  split.
  - intros [-> | (r & Hr & Hs)]; right; exists x; (split; [| reflexivity]).
    + rewrite num_ltb_cap in Hlt. apply Z.ltb_lt in Hlt. lia.
    + rewrite Hs, num_ltb_sqrt in Hlt. apply Z.ltb_lt in Hlt. lia.
  - intros Hk' _. right. exists x. split; [| reflexivity].
    specialize (Hk Hk'). lia.
Qed.

Lemma scan_hull_on_ok (k : Ints) (rect : Rect) (pts : list point) :
  forall s s',
  scan_hull_on k rect pts s = Returns s' ->
  (scan_ok s -> scan_ok s') /\
  (k = NumpyInt32 -> scan_ok32 s -> scan_ok32 s').
Proof.
  induction pts as [| p rest IH]; intros s s'; cbn [scan_hull_on].
  - intros [= <-]. auto.
  - destruct (scan_step_on k rect s p) as [s1 | e] eqn:E; [| discriminate].
    intro H. destruct (scan_step_on_ok k rect s s1 p E) as [H1 H2].
    destruct (IH s1 s' H) as [H3 H4]. split; auto.
Qed.

(** ** A hull of Python integers *)

Lemma line_85_python (rect : Rect) (p : point) :
  line_85 PythonInt rect p = math_sqrt_int (gap2 rect p).
Proof.
  destruct rect as [[[rx ry] rw] rh], p as [px py].
  unfold line_85, coord_diff, gap2, sq_dist, box_point.
  cbn [fst snd square_on add_on]. now rewrite !Z.pow_2_r.
Qed.

Lemma math_sqrt_int_returns (x : Z) :
  0 <= x ->
  (math_sqrt_int x = Returns (Sqrt x) /\ x < float_overflow) \/
  (math_sqrt_int x = Raises OverflowError /\ float_overflow <= x).
Proof.
  intro H. unfold math_sqrt_int.
  destruct (Z.ltb_spec x 0); [lia |].
  destruct (Z.leb_spec float_overflow x); auto.
Qed.

(** With Python integers the method returns exactly when every radicand
    is within the range of a float, and then it returns what exact
    arithmetic gives. *)
Lemma scan_hull_on_python (rect : Rect) (pts : list point) :
  forall s,
  ((forall p, In p pts -> gap2 rect p < float_overflow) /\
   exists s', scan_hull rect pts s = Some s' /\
              scan_hull_on PythonInt rect pts s = Returns s')
  \/
  ((exists p, In p pts /\ float_overflow <= gap2 rect p) /\
   scan_hull_on PythonInt rect pts s = Raises OverflowError).
Proof.
  induction pts as [| p rest IH]; intro s; cbn [scan_hull scan_hull_on].
  - left. split; [intros p [] | exists s; auto].
  - rewrite scan_step_eq. unfold scan_step_on. rewrite line_85_python.
    destruct (math_sqrt_int_returns (gap2 rect p) (gap2_nonneg rect p))
      as [[-> Hlt] | [-> Hge]].
    + destruct (IH (if num_ltb (Sqrt (gap2 rect p)) (min_dist s)
                    then mkScan (Sqrt (gap2 rect p)) p (box_point rect p)
                    else s)) as [[Hall Hs] | [(q & Hq & Hge) Hs]].
      * left. split; [| exact Hs].
        intros q [<- | Hq]; auto.
      * right. split; [exists q; split; [now right | exact Hge] | exact Hs].
    + right. split; [| reflexivity]. exists p. split; [now left | exact Hge].
Qed.

(** ** The classifier on either kind of hull *)

Lemma sqrt_below (x c : Z) :
  0 <= x < c * c -> 0 < c -> (num_R (Sqrt x) < IZR c)%R.
Proof.
  intros Hx Hc. apply (num_ltb_spec (Sqrt x) (Int c)); [simpl; lia | exact I |].
  cbn [num_ltb]. apply andb_true_iff. split; apply Z.ltb_lt; lia.
Qed.

Lemma scan_ok_nonneg (s : Scan) :
  scan_ok s -> (0 <= num_R (min_dist s) <= 99999)%R.
Proof.
  intros [-> | (r & Hr & ->)].
  - simpl. lra.
  - split; [apply sqrt_pos |]. apply Rlt_le. apply (sqrt_below r 99999); lia.
Qed.

(** Nothing is ever reported further away than the initial 99999. *)
Lemma initial_value_stands_for_infinity : stands_for_infinity (Int 99999).
Proof.
  intros k pts rect r. cbn [calculate_logic_on].
  destruct (scan_hull_on k rect pts scan_init) as [s | e] eqn:E; [| discriminate].
  intros [= <-]. destruct (thresholds_fields s) as (-> & _ & _).
  destruct (scan_hull_on_ok k rect pts scan_init s E) as [Hok _].
  apply scan_ok_nonneg. apply Hok. now left.
Qed.

(** In the exact domain the result is the one of exact arithmetic, and a
    hull with a vertex has found its first closest vertex. *)
Lemma calculate_logic_on_found
  (k : Ints) (pts : list point) (rect : Rect) :
  exact_domain rect pts ->
  exists s,
    found rect pts s /\
    calculate_logic (Some pts) rect = Some (thresholds s) /\
    calculate_logic_on k (Some pts) rect = Returns (thresholds s).
Proof.
  intro Hdom.
  destruct (calculate_logic_on_exact k (Some pts) rect Hdom) as (r & Hr & Hon).
  destruct (calculate_logic_scan pts rect) as (s & Hf & Hs).
  rewrite Hr in Hs. injection Hs as ->. eauto.
Qed.

Lemma exact_domain_not_far (rect : Rect) (pts : list point) (p : point) :
  exact_domain rect pts -> In p pts -> gap2 rect p < 99999 * 99999.
Proof.
  intros [_ H] Hp. destruct (H p Hp) as (_ & _ & Hg). pow2. lia.
Qed.

(** C2, as stated, fails on a hull whose vertex is far from the
    rectangle.  On a hull of [np.int32] points the squares of line 85
    wrap: a vertex 65536 away is reported at distance 0, and for a vertex
    49800 away [math.sqrt] raises.  On a hull of Python integers a vertex
    199800 away is not reported at all. *)
Lemma wrapped_distance_not_minimum :
  calculate_logic_on NumpyInt32 (Some [(65736, 0)]) (0, 0, 200, 200)
  = Returns (mkResult STATE_DANGER (Sqrt 0) (65736, 0) (200, 0)) /\
  ~ is_min_gap (0, 0, 200, 200) [(65736, 0)] (num_R (Sqrt 0)) /\
  calculate_logic_on NumpyInt32 (Some [(50000, 0)]) (0, 0, 200, 200)
  = Raises ValueError /\
  calculate_logic_on PythonInt (Some [(200000, 0)]) (0, 0, 200, 200)
  = Returns (mkResult STATE_SAFE (Int 99999) (0, 0) (0, 0)) /\
  ~ is_min_gap (0, 0, 200, 200) [(200000, 0)] (num_R (Int 99999)).
Proof.
  split; [vm_compute; reflexivity |]. split.
  - intros [(p & [<- | []] & Hg) _]. rewrite gap_gap2 in Hg.
    assert (Rlt (num_R (Sqrt 0))
                (num_R (Sqrt (gap2 (0, 0, 200, 200) (65736, 0))))) as Hlt
      by (apply num_ltb_spec; simpl; auto using gap2_nonneg; lia).
    rewrite Hg in Hlt. exact (Rlt_irrefl _ Hlt).
  - split; [vm_compute; reflexivity |]. split; [vm_compute; reflexivity |].
    intros [(p & [<- | []] & Hg) _]. rewrite gap_gap2 in Hg.
    assert (Rlt (num_R (Int 99999))
                (num_R (Sqrt (gap2 (0, 0, 200, 200) (200000, 0))))) as Hlt
      by (apply num_ltb_spec; simpl; auto using gap2_nonneg).
    rewrite Hg in Hlt. exact (Rlt_irrefl _ Hlt).
Qed.

(** C2, amended.  For a hull with at least one vertex, where the
    coordinates of the hull and the corners of the rectangle fit 32 bits
    and every vertex is at a squared distance below 2^31 from its clamped
    point, the distance returned is the minimum over all vertices of the
    Euclidean distance from the vertex to its clamped point, and the hand
    point and zone point returned are a vertex and its clamped point at
    that distance; on either kind of hull. *)
Theorem calculate_logic_minimum (k : Ints) (pts : list point) (rect : Rect) :
  pts <> [] ->
  exact_domain rect pts ->
  exists r,
    calculate_logic_on k (Some pts) rect = Returns r /\
    is_min_gap rect pts (num_R (distance r)) /\
    In (hand_point r) pts /\
    zone_point r = box_point rect (hand_point r) /\
    euclid (hand_point r) (zone_point r) = num_R (distance r).
Proof.
  intros Hne Hdom.
  destruct (calculate_logic_on_found k pts rect Hdom) as (s & Hf & _ & Hon).
  exists (thresholds s). split; [exact Hon |].
  destruct (thresholds_fields s) as (-> & -> & ->).
  apply found_min in Hf.
  destruct Hf as [[_ Hall] | (p & Hp & -> & _ & Hmin)].
  - destruct pts as [| p0 rest]; [contradiction Hne; reflexivity |].
    assert (In p0 (p0 :: rest)) as Hp0 by now left.
    pose proof (exact_domain_not_far rect _ p0 Hdom Hp0).
    specialize (Hall p0 Hp0). lia.
  - cbn [min_dist closest_hand_point closest_box_point].
    rewrite <- gap_gap2. split_all.
    split; [exists p; auto |].
    intros q Hq. apply gap_le_iff. auto.
Qed.

Lemma calculate_logic_minimum_witness :
  [(400, 400); (50, 100); (60, 100)] <> [] /\
  exact_domain (100, 100, 200, 200) [(400, 400); (50, 100); (60, 100)] /\
  exists r,
    calculate_logic_on NumpyInt32 (Some [(400, 400); (50, 100); (60, 100)])
                       (100, 100, 200, 200) = Returns r /\
    is_min_gap (100, 100, 200, 200) [(400, 400); (50, 100); (60, 100)]
               (num_R (distance r)) /\
    In (hand_point r) [(400, 400); (50, 100); (60, 100)] /\
    zone_point r = box_point (100, 100, 200, 200) (hand_point r) /\
    euclid (hand_point r) (zone_point r) = num_R (distance r).
Proof.
  assert ([(400, 400); (50, 100); (60, 100)] <> []) as Hne by discriminate.
  assert (exact_domain (100, 100, 200, 200) [(400, 400); (50, 100); (60, 100)])
    as Hdom.
  { split; [repeat split |].
    intros p [<- | [<- | [<- | []]]]; repeat split. }
  split; [exact Hne |]. split; [exact Hdom |].
  exact (calculate_logic_minimum NumpyInt32 _ _ Hne Hdom).
Defined.

(** C4, as stated, fails without a hull: the distance returned is the
    integer 0, which is not a float and cannot stand for an infinite
    distance, a hull 50 away being reported further. *)
Lemma no_hull_distance_is_zero :
  exists r,
    calculate_logic_on NumpyInt32 None (100, 100, 200, 200) = Returns r /\
    distance r = Int 0 /\
    is_float (distance r) = false /\
    ~ stands_for_infinity (distance r).
Proof.
  exists (mkResult STATE_SAFE (Int 0) (0, 0) (0, 0)).
  split; [reflexivity |]. split; [reflexivity |]. split; [reflexivity |].
  cbn [distance]. intro H.
  specialize (H NumpyInt32 [(50, 100)] (100, 100, 200, 200)
                (mkResult STATE_WARNING (Sqrt 2500) (50, 100) (100, 100))
                eq_refl).
  cbn [distance] in H.
  assert (Rlt (num_R (Int 0)) (num_R (Sqrt 2500))) as Hlt
    by (apply num_ltb_spec; simpl; auto; lia).
  exact (Rlt_irrefl _ (Rle_lt_trans _ _ _ H Hlt)).
Qed.

(** C4, amended.  The distance returned is never negative.  Without a
    hull it is the integer 0.  For a hull with at least one vertex, where
    the coordinates fit 32 bits and every vertex is at a squared distance
    below 2^31 from its clamped point, it is a float: the minimum distance
    of a vertex to the rectangle. *)
Theorem distance_nonnegative
  (k : Ints) (hull : option (list point)) (rect : Rect) :
  (forall r, calculate_logic_on k hull rect = Returns r ->
             (0 <= num_R (distance r))%R) /\
  (hull = None ->
   calculate_logic_on k hull rect
   = Returns (mkResult STATE_SAFE (Int 0) (0, 0) (0, 0))) /\
  (forall pts, hull = Some pts -> pts <> [] -> exact_domain rect pts ->
   exists r,
     calculate_logic_on k hull rect = Returns r /\
     is_float (distance r) = true /\
     is_min_gap rect pts (num_R (distance r))).
Proof.
  split_all.
  - destruct hull as [pts |]; cbn [calculate_logic_on].
    + destruct (scan_hull_on k rect pts scan_init) as [s | e] eqn:E;
        [| discriminate].
      intros r [= <-]. destruct (thresholds_fields s) as (-> & _ & _).
      destruct (scan_hull_on_ok k rect pts scan_init s E) as [Hok _].
      apply scan_ok_nonneg. apply Hok. now left.
    + intros r [= <-]. simpl. lra.
  - intros ->. reflexivity.
  - intros pts -> Hne Hdom.
    destruct (calculate_logic_on_found k pts rect Hdom) as (s & Hf & _ & Hon).
    exists (thresholds s). split; [exact Hon |].
    destruct (thresholds_fields s) as (-> & _ & _).
    apply found_min in Hf.
    destruct Hf as [[_ Hall] | (p & Hp & -> & _ & Hmin)].
    + destruct pts as [| p0 rest]; [contradiction Hne; reflexivity |].
      assert (In p0 (p0 :: rest)) as Hp0 by now left.
      pose proof (exact_domain_not_far rect _ p0 Hdom Hp0).
      specialize (Hall p0 Hp0). lia.
    + cbn [min_dist]. split; [reflexivity |].
      rewrite <- gap_gap2. split; [exists p; auto |].
      intros q Hq. apply gap_le_iff. auto.
Qed.

Example distance_of_a_near_hull :
  calculate_logic_on NumpyInt32 (Some [(400, 400); (50, 100)])
                     (100, 100, 200, 200)
  = Returns (mkResult STATE_WARNING (Sqrt 2500) (50, 100) (100, 100)) /\
  calculate_logic_on PythonInt (Some [(400, 400); (50, 100)])
                     (100, 100, 200, 200)
  = Returns (mkResult STATE_WARNING (Sqrt 2500) (50, 100) (100, 100)).
Proof. split; vm_compute; reflexivity. Qed.

(** C8, as stated, fails when a vertex is far from the rectangle.  On a
    hull of [np.int32] points two vertices tie at the least distance 100,
    and a third vertex, 65536 away, is reported at distance 0.  On a hull
    of Python integers two vertices tie at 199800 and no vertex is
    reported. *)
Lemma tie_not_reported :
  calculate_logic_on NumpyInt32 (Some [(300, 0); (300, 200); (65736, 0)])
                     (0, 0, 200, 200)
  = Returns (mkResult STATE_DANGER (Sqrt 0) (65736, 0) (200, 0)) /\
  gap (0, 0, 200, 200) (300, 0) = gap (0, 0, 200, 200) (300, 200) /\
  is_min_gap (0, 0, 200, 200) [(300, 0); (300, 200); (65736, 0)]
             (gap (0, 0, 200, 200) (300, 0)) /\
  calculate_logic_on PythonInt (Some [(200000, 0); (200000, 200)])
                     (0, 0, 200, 200)
  = Returns (mkResult STATE_SAFE (Int 99999) (0, 0) (0, 0)) /\
  gap (0, 0, 200, 200) (200000, 0) = gap (0, 0, 200, 200) (200000, 200) /\
  is_min_gap (0, 0, 200, 200) [(200000, 0); (200000, 200)]
             (gap (0, 0, 200, 200) (200000, 0)).
Proof.
  split; [vm_compute; reflexivity |].
  split; [rewrite !gap_gap2; reflexivity |]. split.
  - split; [exists (300, 0); simpl; auto |].
    intros q [<- | [<- | [<- | []]]]; apply gap_le_iff; vm_compute; discriminate.
  - split; [vm_compute; reflexivity |].
    split; [rewrite !gap_gap2; reflexivity |].
    split; [exists (200000, 0); simpl; auto |].
    intros q [<- | [<- | []]]; apply gap_le_iff; vm_compute; discriminate.
Qed.

(** C8, amended.  For a hull where the coordinates fit 32 bits and every
    vertex is at a squared distance below 2^31 from its clamped point,
    the hand point and zone point returned are those of the first vertex
    at the least distance in hull order; and the state and the distance
    returned are the same for every reordering of the hull, whichever of
    the tied vertices then comes first; on either kind of hull. *)
Theorem first_minimum_wins
  (k : Ints) (rect : Rect) (l1 l2 : list point) (p : point) :
  exact_domain rect (l1 ++ p :: l2) ->
  (forall q, In q l1 -> gap rect p < gap rect q)%R ->
  (forall q, In q l2 -> gap rect p <= gap rect q)%R ->
  exists r,
    calculate_logic_on k (Some (l1 ++ p :: l2)) rect = Returns r /\
    hand_point r = p /\
    zone_point r = box_point rect p /\
    forall pts', Permutation (l1 ++ p :: l2) pts' ->
      exists r', calculate_logic_on k (Some pts') rect = Returns r' /\
                 state r' = state r /\
                 distance r' = distance r.
Proof.
  intros Hdom H1 H2.
  destruct (calculate_logic_on_found k _ rect Hdom) as (s & Hf & _ & Hon).
  exists (thresholds s). split; [exact Hon |].
  assert (s = mkScan (Sqrt (gap2 rect p)) p (box_point rect p)) as Hs.
  { apply (found_first_minimum rect l1 l2 p s Hf).
    - apply (exact_domain_not_far rect _ p Hdom). apply in_elt.
    - intros q Hq. apply gap_lt_iff. auto.
    - intros q Hq. apply gap_le_iff. auto. }
  destruct (thresholds_fields s) as (Hd & -> & ->).
  split; [now rewrite Hs |]. split; [now rewrite Hs |].
  intros pts' Hperm.
  assert (exact_domain rect pts') as Hdom'.
  { destruct Hdom as [Hrect Hpts]. split; [exact Hrect |].
    intros q Hq. apply Hpts.
    apply (Permutation_in q (Permutation_sym Hperm) Hq). }
  destruct (calculate_logic_on_found k pts' rect Hdom') as (s' & Hf' & _ & Hon').
  exists (thresholds s'). split; [exact Hon' |].
  assert (min_dist s' = min_dist s) as Hmin.
  { apply (found_min_dist_unique rect pts' (l1 ++ p :: l2)); trivial.
    - intros q Hq. apply (Permutation_in q (Permutation_sym Hperm) Hq).
    - intros q Hq. apply (Permutation_in q Hperm Hq). }
  split; [now apply thresholds_state_eq |].
  destruct (thresholds_fields s') as (-> & _ & _). now rewrite Hd.
Qed.

Lemma first_minimum_wins_witness :
  exact_domain (100, 100, 200, 200)
    ([(40, 100)] ++ (50, 150) :: [(50, 100); (350, 120)]) /\
  (forall q, In q [(40, 100)] ->
     Rlt (gap (100, 100, 200, 200) (50, 150)) (gap (100, 100, 200, 200) q)) /\
  (forall q, In q [(50, 100); (350, 120)] ->
     Rle (gap (100, 100, 200, 200) (50, 150)) (gap (100, 100, 200, 200) q)) /\
  exists r,
    calculate_logic_on NumpyInt32
      (Some ([(40, 100)] ++ (50, 150) :: [(50, 100); (350, 120)]))
      (100, 100, 200, 200) = Returns r /\
    hand_point r = (50, 150) /\
    zone_point r = box_point (100, 100, 200, 200) (50, 150) /\
    forall pts',
      Permutation ([(40, 100)] ++ (50, 150) :: [(50, 100); (350, 120)]) pts' ->
      exists r', calculate_logic_on NumpyInt32 (Some pts') (100, 100, 200, 200)
                 = Returns r' /\
                 state r' = state r /\
                 distance r' = distance r.
Proof.
  assert (exact_domain (100, 100, 200, 200)
            ([(40, 100)] ++ (50, 150) :: [(50, 100); (350, 120)])) as Hdom.
  { split; [repeat split |].
    intros q [<- | [<- | [<- | [<- | []]]]]; repeat split. }
  assert (forall q, In q [(40, 100)] ->
            Rlt (gap (100, 100, 200, 200) (50, 150)) (gap (100, 100, 200, 200) q))
    as H1.
  { intros q [<- | []]. apply gap_lt_iff. vm_compute. reflexivity. }
  assert (forall q, In q [(50, 100); (350, 120)] ->
            Rle (gap (100, 100, 200, 200) (50, 150)) (gap (100, 100, 200, 200) q))
    as H2.
  { intros q [<- | [<- | []]]; apply gap_le_iff; vm_compute; discriminate. }
  split; [exact Hdom |]. split; [exact H1 |]. split; [exact H2 |].
  exact (first_minimum_wins NumpyInt32 (100, 100, 200, 200) [(40, 100)]
           [(50, 100); (350, 120)] (50, 150) Hdom H1 H2).
Defined.


(** On a hull of [np.int32] points the distance returned is the initial
    99999 or below 46341, the root of 2^31. *)
Lemma numpy_distance_below_46341
  (pts : list point) (rect : Rect) (r : ProximityResult) :
  calculate_logic_on NumpyInt32 (Some pts) rect = Returns r ->
  distance r = Int 99999 \/ (num_R (distance r) < 46341)%R.
Proof.
  cbn [calculate_logic_on].
  destruct (scan_hull_on NumpyInt32 rect pts scan_init) as [s | e] eqn:E;
    [| discriminate].
  intros [= <-]. destruct (thresholds_fields s) as (-> & _ & _).
  destruct (scan_hull_on_ok NumpyInt32 rect pts scan_init s E) as [_ Hok32].
  destruct (Hok32 eq_refl (or_introl eq_refl)) as [-> | (x & Hx & ->)];
    [now left |].
  right. apply (sqrt_below x 46341); pow2; lia.
Qed.



(** ** More on either kind of hull *)

(** In the exact domain the result says what the vertices say. *)
Lemma calculate_logic_on_min (k : Ints) (pts : list point) (rect : Rect) :
  exact_domain rect pts ->
  exists r,
    calculate_logic_on k (Some pts) rect = Returns r /\
    bucket (num_R (distance r)) (state r) /\
    ((distance r = Int 99999 /\ pts = [])
     \/
     (exists p, In p pts /\
        num_R (distance r) = gap rect p /\
        forall q, In q pts -> (gap rect p <= gap rect q)%R)).
Proof.
  intro Hdom.
  destruct (calculate_logic_on_exact k (Some pts) rect Hdom) as (r & Hr & Hon).
  destruct (calculate_logic_min pts rect) as (r' & Hr' & Hb & Hmin).
  rewrite Hr in Hr'. injection Hr' as <-.
  exists r. split; [exact Hon |]. split; [exact Hb |].
  destruct Hmin as [[Hd Hall] | (p & Hp & Hd & _ & Hmin)].
  - left. split; [exact Hd |].
    destruct pts as [| p0 rest]; [reflexivity |].
    assert (In p0 (p0 :: rest)) as Hp0 by now left.
    pose proof (exact_domain_near rect _ p0 Hdom Hp0).
    specialize (Hall p0 Hp0). lra.
  - right. exists p. auto.
Qed.

(** X3. For a hull where the coordinates fit 32 bits and every vertex is
    at a squared distance below 2^31 from its clamped point, the state is
    DANGER exactly when some vertex is within 10 of the rectangle, SAFE
    exactly when every vertex is at 150 or more, and WARNING exactly when
    every vertex is further than 10 and some vertex is closer than 150;
    on either kind of hull. *)
Theorem state_by_vertices (k : Ints) (pts : list point) (rect : Rect) :
  exact_domain rect pts ->
  exists r,
    calculate_logic_on k (Some pts) rect = Returns r /\
    (state r = STATE_DANGER <->
     exists p, In p pts /\ (gap rect p <= 10)%R) /\
    (state r = STATE_SAFE <->
     forall p, In p pts -> (150 <= gap rect p)%R) /\
    (state r = STATE_WARNING <->
     (forall p, In p pts -> (10 < gap rect p)%R) /\
     exists p, In p pts /\ (gap rect p < 150)%R).
Proof.
  intro Hdom.
  destruct (calculate_logic_on_min k pts rect Hdom) as (r & Hr & Hb & Hmin).
  exists r. split; [exact Hr |].
  destruct (bucket_inv _ _ Hb) as (Hd & Hw & Hs).
  rewrite Hd, Hs, Hw. clear Hd Hs Hw Hb Hr.
  destruct Hmin as [[-> ->] | (p & Hp & -> & Hmin)].
  - simpl num_R. split_all; split.
    + intro H. lra.
    + intros (p & [] & _).
    + intros _ p [].
    + intros _. lra.
    + intro H. lra.
    + intros [_ (p & [] & _)].
  - split_all; split.
    + intro H. eauto.
    + intros (q & Hq & H). specialize (Hmin q Hq). lra.
    + intros H q Hq. specialize (Hmin q Hq). lra.
    + intro H. auto.
    + intro H. split; [| exists p; split; [assumption | lra]].
      intros q Hq. specialize (Hmin q Hq). lra.
    + intros [H1 (q & Hq & H2)]. specialize (H1 p Hp).
      specialize (Hmin q Hq). lra.
Qed.

Lemma state_by_vertices_witness :
  exact_domain (100, 100, 200, 200) [(400, 400); (95, 150)] /\
  exists r,
    calculate_logic_on NumpyInt32 (Some [(400, 400); (95, 150)])
                       (100, 100, 200, 200) = Returns r /\
    (state r = STATE_DANGER <->
     exists p, In p [(400, 400); (95, 150)] /\
               Rle (gap (100, 100, 200, 200) p) 10) /\
    (state r = STATE_SAFE <->
     forall p, In p [(400, 400); (95, 150)] ->
               Rle 150 (gap (100, 100, 200, 200) p)) /\
    (state r = STATE_WARNING <->
     (forall p, In p [(400, 400); (95, 150)] ->
                Rlt 10 (gap (100, 100, 200, 200) p)) /\
     exists p, In p [(400, 400); (95, 150)] /\
               Rlt (gap (100, 100, 200, 200) p) 150).
Proof.
  assert (exact_domain (100, 100, 200, 200) [(400, 400); (95, 150)]) as Hdom.
  { split; [repeat split |]. intros q [<- | [<- | []]]; repeat split. }
  split; [exact Hdom |].
  exact (state_by_vertices NumpyInt32 _ _ Hdom).
Defined.

(** X6. On a hull of Python integers the method raises exactly when the
    squared distance of some vertex to its clamped point is beyond the
    range of a float, and what it raises is [OverflowError]; otherwise it
    returns what exact arithmetic gives.  On either kind of hull it
    returns when the coordinates fit 32 bits and every vertex is at a
    squared distance below 2^31 from its clamped point. *)
Theorem calculate_logic_raises (pts : list point) (rect : Rect) :
  ((exists r, calculate_logic_on PythonInt (Some pts) rect = Returns r /\
              calculate_logic (Some pts) rect = Some r) <->
   forall p, In p pts -> gap2 rect p < float_overflow) /\
  (calculate_logic_on PythonInt (Some pts) rect = Raises OverflowError <->
   exists p, In p pts /\ float_overflow <= gap2 rect p) /\
  calculate_logic_on PythonInt (Some pts) rect <> Raises ValueError /\
  (forall k, exact_domain rect pts ->
     exists r, calculate_logic_on k (Some pts) rect = Returns r).
Proof.
  cbn [calculate_logic_on calculate_logic].
  destruct (scan_hull_on_python rect pts scan_init)
    as [[Hall (s & Hs & Hon)] | [(p & Hp & Hge) Hon]]; rewrite Hon.
  - rewrite Hs. split_all.
    + split; [intros _; exact Hall | intros _; eauto].
    + split; [discriminate |]. intros (p & Hp & Hge).
      specialize (Hall p Hp). lia.
    + discriminate.
    + intros k Hdom.
      destruct (calculate_logic_on_exact k (Some pts) rect Hdom) as (r & _ & H).
      exists r. exact H.
  - split_all.
    + split; [intros (r & H & _); discriminate H |].
      intro Hall. specialize (Hall p Hp). lia.
    + split; [eauto | reflexivity].
    + discriminate.
    + intros k Hdom.
      destruct (calculate_logic_on_exact k (Some pts) rect Hdom) as (r & _ & H).
      exists r. exact H.
Qed.

Example raises_on_far_hulls :
  calculate_logic_on NumpyInt32 (Some [(50, 100); (50000, 0)]) (0, 0, 200, 200)
  = Raises ValueError /\
  calculate_logic_on NumpyInt32 (Some [(5, 5)]) (2 ^ 40, 0, 200, 200)
  = Raises OverflowError /\
  calculate_logic_on PythonInt (Some [(50, 100); (2 ^ 520, 0)]) (0, 0, 200, 200)
  = Raises OverflowError /\
  calculate_logic_on PythonInt (Some [(50, 300); (2 ^ 500, 0)]) (0, 0, 200, 200)
  = Returns (mkResult STATE_WARNING (Sqrt 10000) (50, 300) (50, 200)).
Proof. repeat split; vm_compute; reflexivity. Qed.

Lemma calculate_logic_on_agrees
  (k : Ints) (hull : option (list point)) (zone : Rect)
  (res : ProximityResult) :
  hull_exact zone hull ->
  calculate_logic_on k hull zone = Returns res ->
  calculate_logic hull zone = Some res.
Proof.
  intros Hdom Hon.
  destruct (calculate_logic_on_exact k hull zone Hdom) as (r & Hr & Hon').
  rewrite Hon in Hon'. now injection Hon' as ->.
Qed.

(** X14. Where the coordinates fit 32 bits and every vertex is at a
    squared distance below 2^31 from its clamped point: the interaction
    line is only drawn from a vertex of the hull to the point of the zone
    that vertex is clamped to, and only when the two are closer than 150;
    its length is the distance returned. *)
Theorem interaction_line_endpoints
  (k : Ints) (h w : Z) (zone : Rect) (hull : option (list point))
  (res : ProximityResult) (a b : point) (c : Color) (th : Z) :
  hull_exact zone hull ->
  calculate_logic_on k hull zone = Returns res ->
  In (DrawLine a b c th) (draw_overlays h w zone hull res) ->
  exists pts,
    hull = Some pts /\
    In a pts /\
    b = box_point zone a /\
    state res <> STATE_SAFE /\
    num_R (distance res) = euclid a b /\
    (euclid a b < 150)%R.
Proof.
  intros Hdom Hon Hin.
  pose proof (calculate_logic_on_agrees k hull zone res Hdom Hon) as Hres.
  apply in_draw_overlays in Hin.
  destruct Hin as [(p & q & c' & H) | [(p & c' & H) | [H | [H | H]]]];
    try discriminate H.
  - apply in_hand_draws in H.
    destruct H as (pts & -> & [H | [Hns H]]); [discriminate H |].
    exists pts. split; [reflexivity |].
    destruct (unsafe_result pts zone res Hres Hns)
      as (p & Hp & Hh & Hz & Hd & Hlt & _).
    destruct H as [H | [H | [H | [H | []]]]]; try discriminate H.
    injection H as <- <- _ _. rewrite Hh, Hz, Hd.
    fold (gap zone p). rewrite <- gap_gap2. split_all.
    rewrite gap_gap2. apply (sqrt_below (gap2 zone p) 150); lia.
  - unfold alert_draws in H.
    destruct (state_code (state res) =? state_code STATE_DANGER);
      [| destruct (state_code (state res) =? state_code STATE_WARNING)];
      cbn in H; intuition discriminate.
Qed.

Lemma interaction_line_endpoints_witness :
  hull_exact (100, 100, 200, 200) (Some [(400, 400); (50, 100)]) /\
  calculate_logic_on NumpyInt32 (Some [(400, 400); (50, 100)])
                     (100, 100, 200, 200)
  = Returns (mkResult STATE_WARNING (Sqrt 2500) (50, 100) (100, 100)) /\
  exists pts,
    Some [(400, 400); (50, 100)] = Some pts /\
    In (50, 100) pts /\
    (100, 100) = box_point (100, 100, 200, 200) (50, 100) /\
    STATE_WARNING <> STATE_SAFE /\
    num_R (Sqrt 2500) = euclid (50, 100) (100, 100) /\
    Rlt (euclid (50, 100) (100, 100)) 150.
Proof.
  assert (hull_exact (100, 100, 200, 200) (Some [(400, 400); (50, 100)]))
    as Hdom.
  { split; [repeat split |]. intros q [<- | [<- | []]]; repeat split. }
  assert (calculate_logic_on NumpyInt32 (Some [(400, 400); (50, 100)])
                             (100, 100, 200, 200)
          = Returns (mkResult STATE_WARNING (Sqrt 2500) (50, 100) (100, 100)))
    as Hon by (vm_compute; reflexivity).
  split; [exact Hdom |]. split; [exact Hon |].
  apply (interaction_line_endpoints NumpyInt32 480 640 (100, 100, 200, 200)
           (Some [(400, 400); (50, 100)])
           (mkResult STATE_WARNING (Sqrt 2500) (50, 100) (100, 100))
           (50, 100) (100, 100) (255, 255, 255) 2 Hdom Hon).
  do 3 right. left. reflexivity.
Defined.

(** X16. Where the coordinates fit 32 bits and every vertex is at a
    squared distance below 2^31 from its clamped point: the red border
    around the frame is drawn exactly when a hull is present and one of
    its vertices is within 10 of the zone. *)
Theorem danger_border_iff
  (k : Ints) (h w : Z) (zone : Rect) (hull : option (list point))
  (res : ProximityResult) :
  hull_exact zone hull ->
  calculate_logic_on k hull zone = Returns res ->
  (In (DrawRectangle (0, 0) (w, h) (0, 0, 255) 15)
      (draw_overlays h w zone hull res)
   <->
   exists pts p, hull = Some pts /\ In p pts /\ (gap zone p <= 10)%R).
Proof.
  intros Hdom Hon.
  assert (state res = STATE_DANGER <->
          exists pts p, hull = Some pts /\ In p pts /\ (gap zone p <= 10)%R)
    as Hdanger.
  { destruct hull as [pts |].
    - destruct (calculate_logic_on_min k pts zone Hdom) as (r & Hr & Hb & Hmin).
      rewrite Hon in Hr. injection Hr as <-.
      destruct (bucket_inv _ _ Hb) as (-> & _ & _).
      destruct Hmin as [[-> ->] | (p & Hp & -> & Hmin)].
      + simpl num_R. split; [intro H; lra |].
        intros (pts' & p & [= <-] & [] & _).
      + split; [intro H; exists pts, p; auto |].
        intros (pts' & q & [= <-] & Hq & H). specialize (Hmin q Hq). lra.
    - cbn in Hon. injection Hon as <-. cbn [state].
      split; [discriminate | intros (pts & p & H & _); discriminate H]. }
  rewrite <- Hdanger. clear Hdanger. split.
  - intro Hin. apply in_draw_overlays in Hin.
    destruct Hin as [(p & q & c' & H) | [(p & c' & H) | [H | [H | H]]]];
      try discriminate H.
    + apply in_hand_draws in H.
      destruct H as (pts & _ & [H | [_ H]]); [discriminate H |].
      cbn in H. intuition discriminate.
    + destruct (state res); [| | reflexivity]; cbn in H; intuition discriminate.
  - intro Hst. destruct zone as [[[ox oy] ow] oh]. unfold draw_overlays.
    right. right. cbn [app]. apply in_or_app. right.
    apply in_or_app. left. rewrite Hst. left. reflexivity.
Qed.

Lemma danger_border_iff_witness :
  hull_exact (100, 100, 200, 200) (Some [(90, 150)]) /\
  calculate_logic_on NumpyInt32 (Some [(90, 150)]) (100, 100, 200, 200)
  = Returns (mkResult STATE_DANGER (Sqrt 100) (90, 150) (100, 150)) /\
  (In (DrawRectangle (0, 0) (640, 480) (0, 0, 255) 15)
      (draw_overlays 480 640 (100, 100, 200, 200) (Some [(90, 150)])
         (mkResult STATE_DANGER (Sqrt 100) (90, 150) (100, 150)))
   <->
   exists pts p,
     Some [(90, 150)] = Some pts /\ In p pts /\
     Rle (gap (100, 100, 200, 200) p) 10).
Proof.
  assert (hull_exact (100, 100, 200, 200) (Some [(90, 150)])) as Hdom.
  { split; [repeat split |]. intros q [<- | []]; repeat split. }
  assert (calculate_logic_on NumpyInt32 (Some [(90, 150)]) (100, 100, 200, 200)
          = Returns (mkResult STATE_DANGER (Sqrt 100) (90, 150) (100, 150)))
    as Hon by (vm_compute; reflexivity).
  split; [exact Hdom |]. split; [exact Hon |].
  exact (danger_border_iff NumpyInt32 480 640 (100, 100, 200, 200)
           (Some [(90, 150)])
           (mkResult STATE_DANGER (Sqrt 100) (90, 150) (100, 150)) Hdom Hon).
Defined.

(** The border on a hull whose square wraps: the only vertex is 65536
    away, the state is DANGER and the border is drawn. *)
Example border_on_a_wrapped_hull :
  calculate_logic_on NumpyInt32 (Some [(65736, 0)]) (0, 0, 200, 200)
  = Returns (mkResult STATE_DANGER (Sqrt 0) (65736, 0) (200, 0)) /\
  In (DrawRectangle (0, 0) (640, 480) (0, 0, 255) 15)
     (draw_overlays 480 640 (0, 0, 200, 200) (Some [(65736, 0)])
        (mkResult STATE_DANGER (Sqrt 0) (65736, 0) (200, 0))).
Proof.
  split; [vm_compute; reflexivity |].
  cbn. do 7 right. left. reflexivity.
Qed.
